(** * Weather and document tool server, and its agent client

    A shallow embedding of [app.py] (the tool server) and of the
    conversation loop of [mcp_client.py] (the agent client), with the
    properties of the specification stated and proved over it.

    Conventions of the embedding.
    - A Python [str] is the Rocq [string] of its code points: the character
      of code [n] stands for the code point U+00[n].  The model covers the
      strings whose code points are all below 256, and on them
      [str.lower], [str.strip] and the regular-expression class [\d] are
      given their Unicode behaviour; a string holding a code point from
      256 on has no counterpart here.
    - Python [bytes] are [list byte].
    - JSON-serialisable Python values (the parsed HTTP bodies and the tool
      results) are the inductive [json]; a [dict] keeps its insertion order
      as an association list.
    - A raised exception is the left injection of a sum; the HTTP requests
      an operation sends are returned next to its outcome, in order.
    - What the code takes from its surroundings is an explicit argument: the
      wall clock ([datetime.now()]), the file system ([open]), the module
      globals [API_KEY] and [BASE_URL], the weather upstream, the user's
      input lines and the agent runtime. *)

From Stdlib Require Import String Ascii List Bool NArith ZArith Lia.
From Stdlib Require Import Numbers.DecimalString Strings.Byte.
Import ListNotations.
Open Scope list_scope.
Open Scope string_scope.

Set Warnings "-register-all".

(* ===================================================================== *)
(** * Python strings *)
(* ===================================================================== *)

Module PyStr.

Definition code (c : ascii) : N := N_of_ascii c.

(** [lo <= c <= hi] on character codes. *)
Definition in_range (lo hi c : ascii) : bool :=
  ((code lo <=? code c) && (code c <=? code hi))%N.

Definition is_digit (c : ascii) : bool := in_range "0" "9" c.

(** [str.isspace] below 256, the white space [str.strip] removes: TAB, LF,
    VT, FF, CR, the four separators FS, GS, RS, US, the space, the next
    line control U+0085 and the no-break space U+00A0. *)
Definition isspace (c : ascii) : bool :=
  (in_range "009" "013" c || in_range "028" "031" c || (code c =? 32)%N
   || (code c =? 133)%N || (code c =? 160)%N).

(** The letters [str.lower] changes below 256: A-Z, and the capitals
    U+00C0-U+00DE but for the multiplication sign U+00D7. *)
Definition upper_case (c : ascii) : bool :=
  in_range "A" "Z" c
  || (in_range "192" "222" c && negb (code c =? 215)%N).

(** The lower-case letter is 32 code points above its capital. *)
Definition lower_char (c : ascii) : ascii :=
  if upper_case c then ascii_of_N (code c + 32) else c.

(** [s.lower()] *)
Fixpoint lower (s : string) : string :=
  match s with
  | EmptyString => EmptyString
  | String c s' => String (lower_char c) (lower s')
  end.

(** [s.lstrip()] *)
Fixpoint lstrip (s : string) : string :=
  match s with
  | EmptyString => EmptyString
  | String c s' => if isspace c then lstrip s' else s
  end.

(** [s.rstrip()] *)
Fixpoint rstrip (s : string) : string :=
  match s with
  | EmptyString => EmptyString
  | String c s' =>
      match rstrip s' with
      | EmptyString => if isspace c then EmptyString else String c EmptyString
      | r => String c r
      end
  end.

(** [s.strip()] *)
Definition strip (s : string) : string := rstrip (lstrip s).

(** [s.endswith(suffix)]: the last [len(suffix)] characters of [s] are
    [suffix]. *)
Definition endswith (s suffix : string) : bool :=
  (String.length suffix <=? String.length s)%nat
  && String.eqb (substring (String.length s - String.length suffix)
                           (String.length suffix) s) suffix.

(** [s.startswith(p)] *)
Fixpoint startswith (s p : string) : bool :=
  match p, s with
  | EmptyString, _ => true
  | String a p', String b s' => Ascii.eqb a b && startswith s' p'
  | String _ _, EmptyString => false
  end.

(** [needle in s] for two strings: substring test. *)
Fixpoint contains (s needle : string) : bool :=
  startswith s needle ||
  match s with
  | EmptyString => false
  | String _ s' => contains s' needle
  end.

Definition all_chars (p : ascii -> bool) (s : string) : bool :=
  forallb p (list_ascii_of_string s).

(** [str(n)] for a non-negative integer. *)
Definition str_of_N (n : N) : string :=
  NilEmpty.string_of_uint (N.to_uint n).

Fixpoint zeros (k : nat) : string :=
  match k with
  | O => EmptyString
  | S k' => String "0" (zeros k')
  end.

(** The zero-padded decimal fields of [strftime] ([%m] is [zpad 2],
    [%Y] is [zpad 4]): at least [w] digits, zeros on the left. *)
Definition zpad (w : nat) (n : N) : string :=
  let d := str_of_N n in zeros (w - String.length d) ++ d.

(** [int(s)] for a string of ASCII digits, most significant first. *)
Definition int_of_digits (s : string) : N :=
  fold_left (fun acc c => (10 * acc + (code c - 48))%N)
            (list_ascii_of_string s) 0%N.

End PyStr.
Import PyStr.

(* ===================================================================== *)
(** * Fixed-shape patterns

    The regular expressions that occur in the specification and inside
    [strptime] are sequences of single-character classes. *)
(* ===================================================================== *)

Module Pattern.

Inductive atom : Type :=
| Lit (c : ascii)            (* the character itself *)
| Range (lo hi : ascii).     (* the class [lo-hi] *)

(** [\d]: the decimal digits (category Nd), which below 256 are the ten
    digits 0-9. *)
Definition digit : atom := Range "0" "9".

Definition atom_ok (a : atom) (c : ascii) : bool :=
  match a with
  | Lit x => Ascii.eqb x c
  | Range lo hi => in_range lo hi c
  end.

(** Match a sequence of atoms at the start of [s]: the matched text and
    what is left. *)
Fixpoint match_atoms (p : list atom) (s : string) : option (string * string) :=
  match p with
  | [] => Some (EmptyString, s)
  | a :: p' =>
      match s with
      | EmptyString => None
      | String c s' =>
          if atom_ok a c then
            match match_atoms p' s' with
            | Some (m, rest) => Some (String c m, rest)
            | None => None
            end
          else None
      end
  end.

(** The whole of [s] matches [p]. *)
Definition fullmatch (p : list atom) (s : string) : bool :=
  match match_atoms p s with
  | Some (_, EmptyString) => true
  | _ => false
  end.

Definition lits (s : string) : list atom := map Lit (list_ascii_of_string s).

(** [report_\d{8}_\d{6}\.<extension>] *)
Definition report_pattern (extension : string) : list atom :=
  (lits "report_" ++ repeat digit 8 ++ lits "_" ++ repeat digit 6
        ++ lits "." ++ lits extension)%list.

(** [YYYY-MM-DD]: four digits, two digits, two digits. *)
Definition pattern_YYYY_MM_DD : list atom :=
  (repeat digit 4 ++ lits "-" ++ repeat digit 2 ++ lits "-"
        ++ repeat digit 2)%list.

End Pattern.
Import Pattern.

(* ===================================================================== *)
(** * Dates and times *)
(* ===================================================================== *)

Module DateTime.

Definition is_leap (y : N) : bool :=
  ((y mod 4 =? 0) && (negb (y mod 100 =? 0) || (y mod 400 =? 0)))%N.

Definition days_in_month (y m : N) : N :=
  match m with
  | 2%N => if is_leap y then 29%N else 28%N
  | 4%N | 6%N | 9%N | 11%N => 30%N
  | _ => 31%N
  end.

(** What the constructor of [datetime.date] accepts: MINYEAR = 1,
    MAXYEAR = 9999, a month of the year and a day of that month. *)
Definition valid_date (y m d : N) : bool :=
  ((1 <=? y) && (y <=? 9999) && (1 <=? m) && (m <=? 12)
   && (1 <=? d) && (d <=? days_in_month y m))%N.

Definition valid_time (h mi s : N) : bool :=
  ((h <? 24) && (mi <? 60) && (s <? 60))%N.

(** A [datetime.datetime], with the fields the code reads.  The class
    refuses to build a value outside these ranges. *)
Record datetime : Type := mkDatetime {
  year : N; month : N; day : N;
  hour : N; minute : N; second : N;
  datetime_ok : valid_date year month day && valid_time hour minute second
                = true
}.

(** [t.strftime("%Y%m%d_%H%M%S")].  [%Y] is the year in four digits, as
    the library documents it and as it is for every year from 1000 on;
    the C library of some platforms leaves an earlier year unpadded. *)
Definition strftime_compact (t : datetime) : string :=
  zpad 4 (year t) ++ zpad 2 (month t) ++ zpad 2 (day t) ++ "_"
  ++ zpad 2 (hour t) ++ zpad 2 (minute t) ++ zpad 2 (second t).

End DateTime.
Import DateTime.

(* ===================================================================== *)
(** * Filename policy ([app.py], [get_report_filename]) *)
(* ===================================================================== *)

(** [now] is the value of [datetime.now()] at the call. *)
Definition get_report_filename (now : datetime)
    (file_name : option string) (extension : string) : string :=
  let synthesized := "report_" ++ strftime_compact now ++ "." ++ extension in
  match file_name with
  | None => synthesized
  | Some file_name =>
      if String.eqb (strip file_name) "" then synthesized
      else if negb (endswith (lower file_name) ("." ++ extension))
           then file_name ++ "." ++ extension
           else file_name
  end.

(** 2025-10-28 14:03:07, the time of the call in the worked examples. *)
Definition example_now : datetime := mkDatetime 2025 10 28 14 3 7 eq_refl.

(* ===================================================================== *)
(** * Values, exceptions and outcomes *)
(* ===================================================================== *)

(** JSON-serialisable Python values.  A [float] is kept as its binary64
    bit pattern: the code never computes with one. *)
Inductive json : Type :=
| JNull
| JBool (b : bool)
| JInt (z : Z)
| JFloat (bits : Z)
| JStr (s : string)
| JArr (xs : list json)
| JObj (kvs : list (string * json)).

(** Built-in exceptions the modelled code can meet. *)
Inductive py_error : Type :=
| TypeError
| KeyError (key : string)
| JSONDecodeError
| OtherError (description : string).

(** One constructor per [raise ToolError(...)] site of [app.py]. *)
Inductive tool_error : Type :=
| ApiKeyNotConfigured                 (* "API_KEY is not configured. ..." *)
| WeatherApiError (message : json)    (* "Weather API Error: {message}" *)
| HttpError (status_code : Z)         (* "HTTP Error {code}: Could not reach weather API." *)
| NetworkError (e : string)           (* "Network Error: Could not connect to weather API: {e}" *)
| UnexpectedError (e : py_error)      (* "An unexpected error occurred during API call: {e}" *)
| InvalidDateFormat (dt : string).    (* "Invalid date format: '{dt}'. Must be in YYYY-MM-DD format." *)

Inductive exn : Type :=
| ToolError (e : tool_error)
| ArgumentValidationError (tool param : string)
| OSError (path : string).

Inductive outcome (A : Type) : Type :=
| Ok (a : A)
| Raise (e : exn).
Arguments Ok {A} a.
Arguments Raise {A} e.

Module Dict.

Definition dict : Type := list (string * json).

(** [key in d] *)
Definition mem (key : string) (d : dict) : bool :=
  existsb (fun kv => String.eqb (fst kv) key) d.

(** [d[key]], [None] standing for [KeyError]. *)
Fixpoint get (key : string) (d : dict) : option json :=
  match d with
  | [] => None
  | (k, v) :: d' => if String.eqb k key then Some v else get key d'
  end.

(** [d[key] = v]: an existing key keeps its place. *)
Fixpoint set (key : string) (v : json) (d : dict) : dict :=
  match d with
  | [] => [(key, v)]
  | (k, w) :: d' =>
      if String.eqb k key then (k, v) :: d' else (k, w) :: set key v d'
  end.

(** [{**d1, **d2}] *)
Definition merge (d1 d2 : dict) : dict :=
  fold_left (fun d kv => set (fst kv) (snd kv) d) d2 d1.

End Dict.

Definition json_is_str (s : string) (v : json) : bool :=
  match v with
  | JStr t => String.eqb t s
  | _ => false
  end.

(** [key in data] for a string [key] and an arbitrary parsed body: key
    membership on a dict, element membership on a list, substring test on
    a string, [TypeError] on anything else. *)
Definition py_in (key : string) (data : json) : py_error + bool :=
  match data with
  | JObj kvs => inr (Dict.mem key kvs)
  | JArr xs => inr (existsb (json_is_str key) xs)
  | JStr s => inr (contains s key)
  | JNull | JBool _ | JInt _ | JFloat _ => inl TypeError
  end.

(** [data[key]] for a string [key]. *)
Definition py_getitem (data : json) (key : string) : py_error + json :=
  match data with
  | JObj kvs =>
      match Dict.get key kvs with
      | Some v => inr v
      | None => inl (KeyError key)
      end
  | _ => inl TypeError
  end.

(* ===================================================================== *)
(** * Base64 ([base64.b64encode], and the decoder of RFC 4648) *)
(* ===================================================================== *)

Module Base64.

Definition alphabet : string :=
  "ABCDEFGHIJKLMNOPQRSTUVWXYZabcdefghijklmnopqrstuvwxyz0123456789+/".

Definition pad : ascii := "="%char.

(** The character of a 6-bit value. *)
Definition b64char (n : N) : ascii :=
  match String.get (N.to_nat n) alphabet with
  | Some c => c
  | None => pad
  end.

Fixpoint index_of (c : ascii) (s : string) : option N :=
  match s with
  | EmptyString => None
  | String x s' =>
      if Ascii.eqb x c then Some 0%N
      else option_map N.succ (index_of c s')
  end.

(** The 6-bit value of a character of the alphabet. *)
Definition b64val (c : ascii) : option N := index_of c alphabet.

Local Open Scope N_scope.

(** The four 6-bit groups of the 24 bits [x y z]. *)
Definition sextet1 (x : N) : N := N.shiftr x 2.
Definition sextet2 (x y : N) : N := N.lor (N.shiftl (N.land x 3) 4) (N.shiftr y 4).
Definition sextet3 (y z : N) : N := N.lor (N.shiftl (N.land y 15) 2) (N.shiftr z 6).
Definition sextet4 (z : N) : N := N.land z 63.

(** Three bytes give four characters.  One or two trailing bytes are
    completed with zero bits to a whole number of 6-bit groups, and the
    output is padded to four characters. *)
Fixpoint b64encode (bs : list byte) : string :=
  match bs with
  | [] => EmptyString
  | [a] =>
      let x := Byte.to_N a in
      String (b64char (sextet1 x))
        (String (b64char (sextet2 x 0))
           (String pad (String pad EmptyString)))
  | [a; b] =>
      let x := Byte.to_N a in
      let y := Byte.to_N b in
      String (b64char (sextet1 x))
        (String (b64char (sextet2 x y))
           (String (b64char (sextet3 y 0))
              (String pad EmptyString)))
  | a :: b :: c :: rest =>
      let x := Byte.to_N a in
      let y := Byte.to_N b in
      let z := Byte.to_N c in
      String (b64char (sextet1 x))
        (String (b64char (sextet2 x y))
           (String (b64char (sextet3 y z))
              (String (b64char (sextet4 z)) (b64encode rest))))
  end.

(** The low eight bits, as a byte. *)
Definition low_byte (n : N) : byte :=
  match Byte.of_N (N.land n 255) with
  | Some b => b
  | None => x00
  end.

Definition byte1 (v1 v2 : N) : byte := low_byte (N.lor (N.shiftl v1 2) (N.shiftr v2 4)).
Definition byte2 (v2 v3 : N) : byte := low_byte (N.lor (N.shiftl v2 4) (N.shiftr v3 2)).
Definition byte3 (v3 v4 : N) : byte := low_byte (N.lor (N.shiftl v3 6) v4).

(** Strict decoding: groups of four characters of the alphabet, padding
    only at the very end; [None] on anything else. *)
Fixpoint b64decode (s : string) : option (list byte) :=
  match s with
  | EmptyString => Some []
  | String c1 (String c2 (String c3 (String c4 rest))) =>
      match b64val c1, b64val c2 with
      | Some v1, Some v2 =>
          if Ascii.eqb c3 pad then
            if Ascii.eqb c4 pad && String.eqb rest EmptyString
            then Some [byte1 v1 v2] else None
          else
            match b64val c3 with
            | None => None
            | Some v3 =>
                if Ascii.eqb c4 pad then
                  if String.eqb rest EmptyString
                  then Some [byte1 v1 v2; byte2 v2 v3] else None
                else
                  match b64val c4 with
                  | None => None
                  | Some v4 =>
                      match b64decode rest with
                      | Some tl =>
                          Some (byte1 v1 v2 :: byte2 v2 v3 :: byte3 v3 v4 :: tl)
                      | None => None
                      end
                  end
            end
      | _, _ => None
      end
  | _ => None
  end.

End Base64.
Import Base64.

(* ===================================================================== *)
(** * File packaging ([app.py], [handle_file_result]) *)
(* ===================================================================== *)

(** [os.path.basename] (POSIX): what follows the last slash, the whole
    path when there is none.  [tail] is the text after the last slash met
    so far. *)
Fixpoint basename_from (tail p : string) : string :=
  match p with
  | EmptyString => tail
  | String c p' =>
      if Ascii.eqb c "/" then basename_from p' p' else basename_from tail p'
  end.

Definition basename (p : string) : string := basename_from p p.

(** The file system as [open(path, "rb").read()] sees it: the content of
    a readable file, [None] where [open] raises. *)
Definition filesystem : Type := string -> option (list byte).

Definition handle_file_result (fs : filesystem)
    (file_path mime_type : string) : outcome json :=
  match fs file_path with
  | None => Raise (OSError file_path)
  | Some file_data =>
      let encoded_data := b64encode file_data in
      Ok (JArr [ JObj [ ("data", JStr encoded_data);
                        ("mime_type", JStr mime_type);
                        ("name", JStr (basename file_path)) ] ])
  end.

(* ===================================================================== *)
(** * [datetime.strptime(dt, '%Y-%m-%d')] *)
(* ===================================================================== *)

Module Strptime.

(** A directive compiles to a capture group: an ordered list of
    alternatives, tried from left to right. *)
Definition group : Type := list (list atom).

Definition re_Y : group := [ [digit; digit; digit; digit] ].      (* \d\d\d\d *)
Definition re_m : group :=                          (* 1[0-2]|0[1-9]|[1-9] *)
  [ [Lit "1"; Range "0" "2"]; [Lit "0"; Range "1" "9"]; [Range "1" "9"] ].
Definition re_d : group :=        (* 3[0-1]|[1-2]\d|0[1-9]|[1-9]| [1-9] *)
  [ [Lit "3"; Range "0" "1"]; [Range "1" "2"; digit];
    [Lit "0"; Range "1" "9"]; [Range "1" "9"]; [Lit " "; Range "1" "9"] ].
Definition re_dash : group := [ [Lit "-"] ].

(** The regular expression of the format ['%Y-%m-%d']. *)
Definition format_regex : list group := [re_Y; re_dash; re_m; re_dash; re_d].

(** [re.match]: leftmost alternative first, backtracking into the next
    alternative when the rest of the expression fails.  The captured
    texts, and what is left of the input after the match. *)
Fixpoint match_groups (gs : list group) (s : string)
  : option (list string * string) :=
  match gs with
  | [] => Some ([], s)
  | g :: gs' =>
      (fix try_alternatives (alts : list (list atom)) :=
         match alts with
         | [] => None
         | alt :: alts' =>
             match match_atoms alt s with
             | Some (captured, rest) =>
                 match match_groups gs' rest with
                 | Some (caps, r) => Some (captured :: caps, r)
                 | None => try_alternatives alts'
                 end
             | None => try_alternatives alts'
             end
         end) g
  end.

(** [int(s)]: surrounding white space is ignored. *)
Definition py_int (s : string) : N := int_of_digits (strip s).

(** The date parsed, or [None] where [strptime] raises [ValueError]:
    the expression does not match, unconverted data remains, or the
    fields are not a date of the calendar. *)
Definition strptime_ymd (data_string : string) : option (N * N * N) :=
  match match_groups format_regex data_string with
  | Some ([Y; _; m; _; d], EmptyString) =>
      let y := py_int Y in
      let mo := py_int m in
      let dd := py_int d in
      if valid_date y mo dd then Some (y, mo, dd) else None
  | _ => None
  end.

End Strptime.
Import Strptime.

(* ===================================================================== *)
(** * Weather query dispatch ([app.py], tools 1-3) *)
(* ===================================================================== *)

(** The module globals. *)
Record config : Type := mkConfig {
  API_KEY : string;
  BASE_URL : string
}.

Definition PLACEHOLDER_KEY : string := "YOUR_API_TOKEN".

(** The globals as [app.py] sets them. *)
Definition module_config : config :=
  {| API_KEY := "b27fe189341c46fe8ad63338251509";
     BASE_URL := "http://api.weatherapi.com/v1" |}.

(** [client.get(url, params=...)] on a client built with [timeout]. *)
Record http_request : Type := mkRequest {
  req_url : string;
  req_params : Dict.dict;
  req_timeout : Z
}.

(** What one GET comes to: a response with its status code and its body
    as [response.json()] reads it ([None] when the body is not JSON), a
    connection or timeout failure ([httpx.RequestError]), or some other
    exception. *)
Inductive http_outcome : Type :=
| HttpResponse (status_code : Z) (body : option json)
| HttpRequestError (e : string)
| HttpOtherFailure (e : py_error).

Definition upstream : Type := http_request -> http_outcome.

(** [response.raise_for_status()] passes exactly the 2xx codes. *)
Definition is_success (status_code : Z) : bool :=
  ((200 <=? status_code) && (status_code <=? 299))%Z.

(** What can be raised inside the [try] block of [make_weather_request]. *)
Inductive raised : Type :=
| HTTPStatusError (status_code : Z)
| RequestError (e : string)
| RaisedToolError (e : tool_error)
| RaisedException (e : py_error).

Definition lift_py {A : Type} (r : py_error + A) : raised + A :=
  match r with
  | inl e => inl (RaisedException e)
  | inr a => inr a
  end.

Definition bind_raised {A B : Type} (m : raised + A) (k : A -> raised + B)
  : raised + B :=
  match m with
  | inl e => inl e
  | inr a => k a
  end.

Notation "x <- m ;; k" := (bind_raised m (fun x => k))
  (at level 61, m at next level, right associativity).

(** Lines 49-57: the body of the [try]. *)
Definition try_block (reply : http_outcome) : raised + json :=
  response <- match reply with
              | HttpResponse status_code body => inr (status_code, body)
              | HttpRequestError e => inl (RequestError e)
              | HttpOtherFailure e => inl (RaisedException e)
              end ;;
  _ <- (if is_success (fst response) then inr tt
        else inl (HTTPStatusError (fst response))) ;;
  data <- match snd response with
          | Some data => inr data
          | None => inl (RaisedException JSONDecodeError)
          end ;;
  has_error <- lift_py (py_in "error" data) ;;
  if has_error : bool then
    err <- lift_py (py_getitem data "error") ;;
    message <- lift_py (py_getitem err "message") ;;
    inl (RaisedToolError (WeatherApiError message))
  else inr data.

(** Lines 58-69: the [except] clauses. *)
Definition except_clauses (r : raised + json) : outcome json :=
  match r with
  | inr data => Ok data
  | inl (HTTPStatusError status_code) => Raise (ToolError (HttpError status_code))
  | inl (RequestError e) => Raise (ToolError (NetworkError e))
  | inl (RaisedToolError e) => Raise (ToolError e)
  | inl (RaisedException e) => Raise (ToolError (UnexpectedError e))
  end.

(** Lines 44-45 and the arguments of line 47 and 49: the GET that is
    sent. *)
Definition weather_request (cfg : config) (endpoint : string)
    (params : Dict.dict) : http_request :=
  let url := BASE_URL cfg ++ "/" ++ endpoint ++ ".json" in
  let full_params := Dict.merge [("key", JStr (API_KEY cfg))] params in
  {| req_url := url; req_params := full_params; req_timeout := 10 |}.

(** The outcome, and the requests sent. *)
Definition make_weather_request (cfg : config) (up : upstream)
    (endpoint : string) (params : Dict.dict)
  : outcome json * list http_request :=
  if String.eqb (API_KEY cfg) PLACEHOLDER_KEY then
    (Raise (ToolError ApiKeyNotConfigured), [])
  else
    let request := weather_request cfg endpoint params in
    (except_clauses (try_block (up request)), [request]).

Definition get_current_weather (cfg : config) (up : upstream) (q : string)
  : outcome json * list http_request :=
  make_weather_request cfg up "current" [("q", JStr q)].

(** The function body; [int(days)] is [days] on an integer. *)
Definition get_forecast_weather (cfg : config) (up : upstream)
    (q : string) (days : Z) : outcome json * list http_request :=
  make_weather_request cfg up "forecast" [("q", JStr q); ("days", JInt days)].

(** The annotation of [days]: [Literal[1, 2, ..., 14]]. *)
Definition days_Literal : list Z :=
  [1; 2; 3; 4; 5; 6; 7; 8; 9; 10; 11; 12; 13; 14]%Z.

(** Modelled, not taken from [app.py]: the forecast operation as the
    third-party tool framework is documented to run a function registered
    by [@mcp.tool()].  The framework validates the arguments of a call
    against the annotations of the signature and raises without running
    the body when [days] is not a member of the [Literal].  The function
    of the source is [get_forecast_weather] above and has no such test. *)
Definition call_get_forecast_weather (cfg : config) (up : upstream)
    (q : string) (days : Z) : outcome json * list http_request :=
  if existsb (Z.eqb days) days_Literal
  then get_forecast_weather cfg up q days
  else (Raise (ArgumentValidationError "get_forecast_weather" "days"), []).

Definition get_history_weather (cfg : config) (up : upstream)
    (q dt : string) : outcome json * list http_request :=
  match strptime_ymd dt with
  | None => (Raise (ToolError (InvalidDateFormat dt)), [])
  | Some _ =>
      make_weather_request cfg up "history" [("q", JStr q); ("dt", JStr dt)]
  end.

(* ===================================================================== *)
(** * Operation catalog ([app.py], [list_tools]) *)
(* ===================================================================== *)

(** The functions under [@mcp.tool()], in the order of registration. *)
Inductive tool : Type :=
| T_get_current_weather | T_get_forecast_weather | T_get_history_weather
| T_generate_pdf_report | T_generate_docx_report | T_generate_png_image
| T_generate_md_report | T_list_tools.

Inductive tool_kind : Type := WeatherQuery | DocumentGenerator | Listing.

Definition registered_tools : list tool :=
  [ T_get_current_weather; T_get_forecast_weather; T_get_history_weather;
    T_generate_pdf_report; T_generate_docx_report; T_generate_png_image;
    T_generate_md_report; T_list_tools ].

Definition tool_name (t : tool) : string :=
  match t with
  | T_get_current_weather => "get_current_weather"
  | T_get_forecast_weather => "get_forecast_weather"
  | T_get_history_weather => "get_history_weather"
  | T_generate_pdf_report => "generate_pdf_report"
  | T_generate_docx_report => "generate_docx_report"
  | T_generate_png_image => "generate_png_image"
  | T_generate_md_report => "generate_md_report"
  | T_list_tools => "list_tools"
  end.

Definition kind_of (t : tool) : tool_kind :=
  match t with
  | T_get_current_weather | T_get_forecast_weather | T_get_history_weather =>
      WeatherQuery
  | T_generate_pdf_report | T_generate_docx_report | T_generate_png_image
  | T_generate_md_report => DocumentGenerator
  | T_list_tools => Listing
  end.

Definition is_kind (k : tool_kind) (t : tool) : bool :=
  match k, kind_of t with
  | WeatherQuery, WeatherQuery => true
  | DocumentGenerator, DocumentGenerator => true
  | Listing, Listing => true
  | _, _ => false
  end.

Definition list_tools (_ : unit) : json :=
  JObj [ ("tools",
          JArr [ JStr "get_current_weather";
                 JStr "get_forecast_weather";
                 JStr "get_history_weather";
                 JStr "generate_pdf_report";
                 JStr "generate_docx_report";
                 JStr "generate_png_image";
                 JStr "generate_md_report" ]) ].

(* ===================================================================== *)
(** * Agent client loop ([mcp_client.py], the [while True] of
      [run_mcp_agent]) *)
(* ===================================================================== *)

Module AgentLoop.

(** What [agent_executor.ainvoke] followed by reading
    [result['messages'][-1].content] comes to: a reply, or an exception
    caught by the [except Exception] of the turn.  [tool_calls] are the
    tool invocations the agent made during the turn. *)
Record turn_result : Type := mkTurn {
  tool_calls : list string;
  reply : string + string          (* inr content | inl exception text *)
}.

(** What the loop does, in order. *)
Inductive event : Type :=
| ReadInput (user_input : string)        (* input("\nUser: ") returned *)
| PrintExiting                           (* print("Exiting agent.") *)
| AgentInvoked (content : string)        (* agent_executor.ainvoke(...) *)
| ToolInvoked (name : string)            (* a tool call made by the agent *)
| PrintReply (content : string)          (* print(f"Agent: ...") *)
| PrintFailure (e : string).             (* the failure notice and traceback *)

(** How the loop is left. *)
Inductive loop_exit : Type :=
| Terminated          (* [break] *)
| InputExhausted.     (* [input] raised [EOFError]: no line left to read *)

(** [user_input.lower() in ["quit", "exit"]] *)
Definition is_exit_command (user_input : string) : bool :=
  existsb (String.eqb (lower user_input)) ["quit"; "exit"].

Section Loop.

(** The agent runtime: its state, and one reasoning step. *)
Variable agent_state : Type.
Variable ainvoke : agent_state -> string -> turn_result * agent_state.

Definition turn_events (user_input : string) (r : turn_result) : list event :=
  (ReadInput user_input :: AgentInvoked user_input
     :: map ToolInvoked (tool_calls r)
     ++ [match reply r with
         | inr content => PrintReply content
         | inl e => PrintFailure e
         end])%list.

(** The loop over the lines the operator types. *)
Fixpoint chat_loop (st : agent_state) (inputs : list string)
  : loop_exit * list event * agent_state :=
  match inputs with
  | [] => (InputExhausted, [], st)
  | user_input :: rest =>
      if is_exit_command user_input then
        (Terminated, [ReadInput user_input; PrintExiting], st)
      else
        let (r, st') := ainvoke st user_input in
        let '(ex, evs, st'') := chat_loop st' rest in
        (ex, (turn_events user_input r ++ evs)%list, st'')
  end.

End Loop.

(** The inputs handed to the agent, in order. *)
Definition agent_inputs (evs : list event) : list string :=
  flat_map (fun e => match e with
                     | AgentInvoked content => [content]
                     | _ => []
                     end) evs.

(** The tool invocations, in order. *)
Definition tool_invocations (evs : list event) : list string :=
  flat_map (fun e => match e with
                     | ToolInvoked name => [name]
                     | _ => []
                     end) evs.

(** The lines typed before the first exit command. *)
Fixpoint before_exit (inputs : list string) : list string :=
  match inputs with
  | [] => []
  | user_input :: rest =>
      if is_exit_command user_input then []
      else user_input :: before_exit rest
  end.

End AgentLoop.
Import AgentLoop.

(* ===================================================================== *)
(** * Vocabulary of the statements *)
(* ===================================================================== *)

(** The numbers [0 .. k-1], for properties checked by enumeration. *)
Definition below (k : N) : list N := map N.of_nat (seq 0 (N.to_nat k)).

Definition no_slash (s : string) : bool :=
  all_chars (fun c => negb (Ascii.eqb c "/")) s.

(** A directory prefix: empty, or ending with the separator. *)
Definition is_dir_prefix (d : string) : Prop :=
  d = "" \/ exists d', d = d' ++ "/".

(** The file system after [content] has been written to [path].  Files
    are looked up by the path as it is written: reading the path that
    was written gives the content back, and nothing is said here about
    other spellings of the same file. *)
Definition fs_write (fs : filesystem) (path : string) (content : list byte)
  : filesystem :=
  fun p => if String.eqb p path then Some content else fs p.

Definition empty_fs : filesystem := fun _ => None.

(** A file system holding one file. *)
Definition single_file (path : string) (content : list byte) : filesystem :=
  fs_write empty_fs path content.

(** The [data] field of a packaged result. *)
Definition packaged_data (r : outcome json) : option string :=
  match r with
  | Ok (JArr [JObj kvs]) =>
      match Dict.get "data" kvs with
      | Some (JStr s) => Some s
      | _ => None
      end
  | _ => None
  end.

(** [YYYY-MM-DD] read leniently: a month of one or two digits, a day of
    one or two digits or of a space and a digit. *)
Definition lenient_date_patterns : list (list atom) :=
  flat_map
    (fun m => map (fun d => (repeat digit 4 ++ lits "-" ++ m ++ lits "-" ++ d)%list)
                  [ [digit]; [digit; digit]; [Lit " "; digit] ])
    [ [digit]; [digit; digit] ].

Definition matches_any (ps : list (list atom)) (s : string) : bool :=
  existsb (fun p => fullmatch p s) ps.

(** Every character accepted by [a] is accepted by [b] (a sufficient
    test). *)
Definition atom_sub (a b : atom) : bool :=
  match a, b with
  | Lit x, Lit y => Ascii.eqb x y
  | Lit x, Range lo hi => in_range lo hi x
  | Range lo hi, Range lo' hi' =>
      ((code lo' <=? code lo) && (code hi <=? code hi'))%N
  | Range _ _, Lit _ => false
  end.

Fixpoint atoms_sub (p q : list atom) : bool :=
  match p, q with
  | [], [] => true
  | a :: p', b :: q' => atom_sub a b && atoms_sub p' q'
  | _, _ => false
  end.

(** The atom sequences a list of groups can match with: one alternative
    of each group, in order. *)
Fixpoint flattenings (gs : list group) : list (list atom) :=
  match gs with
  | [] => [ [] ]
  | g :: gs' =>
      flat_map (fun alt => map (app alt) (flattenings gs')) g
  end.

(** An upstream that answers every request with the same body. *)
Definition constant_upstream (status_code : Z) (body : json) : upstream :=
  fun _ => HttpResponse status_code (Some body).

Definition example_body : json :=
  JObj [ ("location", JObj [ ("name", JStr "London") ]) ].

(** The body the upstream sends for an unknown location. *)
Definition no_location_body : json :=
  JObj [ ("error", JObj [ ("code", JInt 1006);
                          ("message", JStr "No matching location found.") ]) ].

(** The globals with the credential left at the placeholder. *)
Definition placeholder_config : config :=
  {| API_KEY := PLACEHOLDER_KEY; BASE_URL := "http://api.weatherapi.com/v1" |}.

(** An agent that answers every input with the same reply and calls no
    tool. *)
Definition echo_agent (st : nat) (user_input : string)
  : turn_result * nat :=
  ({| tool_calls := []; reply := inr user_input |}, S st).

(** The registered names of one kind, in the order of registration. *)
Definition names_of_kind (k : tool_kind) : list string :=
  map tool_name (filter (is_kind k) registered_tools).

(* ===================================================================== *)
(** * Document generators ([app.py], tools 4-7) *)
(* ===================================================================== *)

Module Generators.

(** [s.encode("utf-8")] for code points below 256: one byte below 128,
    two bytes from there on. *)
Definition utf8_char (c : ascii) : list byte :=
  let n := code c in
  if (n <? 128)%N then [low_byte n]
  else [ low_byte (N.lor 192 (N.shiftr n 6));
         low_byte (N.lor 128 (N.land n 63)) ].

Definition encode_utf8 (s : string) : list byte :=
  flat_map utf8_char (list_ascii_of_string s).

(** [t.strftime('%Y-%m-%d %H:%M:%S')] *)
Definition strftime_heading (t : datetime) : string :=
  zpad 4 (year t) ++ "-" ++ zpad 2 (month t) ++ "-" ++ zpad 2 (day t) ++ " "
  ++ zpad 2 (hour t) ++ ":" ++ zpad 2 (minute t) ++ ":" ++ zpad 2 (second t).

Definition newline : string := String "010" EmptyString.

(** Whether a file can be created or replaced at a path. *)
Definition write_access : Type := string -> bool.

(** What a generator can meet: an exception of the code's own kinds, or
    one raised inside a rendering library. *)
Inductive cause : Type :=
| FromExn (e : exn)
| FromLibrary (e : string).

(** How a generator fails: the exception leaves the function as it is, or
    (PNG only) wrapped in [ToolError("Failed to generate PNG image: ...")]. *)
Inductive gen_exn : Type :=
| Uncaught (c : cause)
| FailedToGeneratePng (c : cause).

(** The result, and the file system the call leaves behind. *)
Definition gen_result : Type := (gen_exn + json) * filesystem.

(** Writing [content] to [file_path]: [OSError] where the file cannot be
    written; the file reads back as written. *)
Definition store (can_write : write_access) (fs : filesystem)
    (file_path : string) (content : list byte) : cause + filesystem :=
  if can_write file_path then inr (fs_write fs file_path content)
  else inl (FromExn (OSError file_path)).

(** The last two steps of every generator: the library writes the file,
    then [handle_file_result] reads it back. *)
Definition write_and_package (can_write : write_access) (fs : filesystem)
    (file_path mime_type : string) (content : list byte)
  : (cause + json) * filesystem :=
  match store can_write fs file_path content with
  | inl c => (inl c, fs)
  | inr fs' =>
      (match handle_file_result fs' file_path mime_type with
       | Ok v => inr v
       | Raise e => inl (FromExn e)
       end, fs')
  end.

Definition uncaught (r : (cause + json) * filesystem) : gen_result :=
  (match fst r with
   | inl c => inl (Uncaught c)
   | inr v => inr v
   end, snd r).

Definition png_wrapped (r : (cause + json) * filesystem) : gen_result :=
  (match fst r with
   | inl c => inl (FailedToGeneratePng c)
   | inr v => inr v
   end, snd r).

Section Renderers.

(** The rendering libraries: the bytes of the document for a text, or the
    exception the library raises. *)
Variable render_pdf : string -> string + list byte.
Variable render_docx : string -> string + list byte.

Definition generate_pdf_report (can_write : write_access) (fs : filesystem)
    (now : datetime) (content : string) (file_name : option string)
  : gen_result :=
  let file_path := get_report_filename now file_name "pdf" in
  match render_pdf content with
  | inl e => (inl (Uncaught (FromLibrary e)), fs)
  | inr document =>
      uncaught (write_and_package can_write fs file_path
                                  "application/pdf" document)
  end.

Definition generate_docx_report (can_write : write_access) (fs : filesystem)
    (now : datetime) (content : string) (file_name : option string)
  : gen_result :=
  let file_path := get_report_filename now file_name "docx" in
  match render_docx content with
  | inl e => (inl (Uncaught (FromLibrary e)), fs)
  | inr document =>
      uncaught (write_and_package
                  can_write fs file_path
                  "application/vnd.openxmlformats-officedocument.wordprocessingml.document"
                  document)
  end.

(** The font the text is drawn with. *)
Inductive png_font : Type := Arial20 | DefaultFont.

(** What [ImageFont.truetype("arial.ttf", 20)] comes to. *)
Inductive font_outcome : Type :=
| FontLoaded
| FontIOError                    (* caught: the default font is used *)
| FontOtherError (e : string).   (* not an [IOError]: reaches the outer handler *)

(** The image with the text drawn in a font, as PNG bytes, or the
    exception of the imaging library. *)
Variable render_png : png_font -> string -> string + list byte.

Definition generate_png_image (truetype : font_outcome)
    (can_write : write_access) (fs : filesystem)
    (now : datetime) (content : string) (file_name : option string)
  : gen_result :=
  let file_path := get_report_filename now file_name "png" in
  let font := match truetype with
              | FontLoaded => inr Arial20
              | FontIOError => inr DefaultFont
              | FontOtherError e => inl e
              end in
  match font with
  | inl e => (inl (FailedToGeneratePng (FromLibrary e)), fs)
  | inr font =>
      match render_png font content with
      | inl e => (inl (FailedToGeneratePng (FromLibrary e)), fs)
      | inr image =>
          png_wrapped (write_and_package can_write fs file_path
                                         "image/png" image)
      end
  end.

End Renderers.

(** The text of a Markdown report: the heading, an empty line, the
    content. *)
Definition md_text (now : datetime) (content : string) : string :=
  "# Report Generated on " ++ strftime_heading now ++ newline ++ newline
  ++ content.

(** [now_name] is the clock when the filename is made, [now_heading] the
    clock when the heading is written. *)
Definition generate_md_report (can_write : write_access) (fs : filesystem)
    (now_name now_heading : datetime) (content : string)
    (file_name : option string) : gen_result :=
  let file_path := get_report_filename now_name file_name "md" in
  uncaught (write_and_package can_write fs file_path "text/markdown"
                              (encode_utf8 (md_text now_heading content))).

End Generators.
Import Generators.

(* ===================================================================== *)
(** * Agent client start-up ([mcp_client.py]) *)
(* ===================================================================== *)

Module Client.

(** [os.environ] *)
Definition environ : Type := string -> option string.

(** [os.environ[name] = value] *)
Definition setenv (env : environ) (name value : string) : environ :=
  fun x => if String.eqb x name then Some value else env x.

(** The truth value of [os.environ.get(var)]: set, and not empty. *)
Definition truthy (v : option string) : bool :=
  match v with
  | Some s => negb (String.eqb s "")
  | None => false
  end.

Definition required_vars : list string :=
  [ "AZURE_OPENAI_API_KEY"; "AZURE_OPENAI_ENDPOINT";
    "AZURE_OPENAI_DEPLOYMENT_NAME" ].

(** [all(os.environ.get(var) for var in required_vars)] *)
Definition credentials_present (env : environ) : bool :=
  forallb (fun var => truthy (env var)) required_vars.

Inductive main_action : Type :=
| SetupError (listed : list string)   (* the setup notice with the variables *)
| RunAgent (env : environ).           (* asyncio.run(run_mcp_agent()) *)

(** Lines 103-117: the script's entry point. *)
Definition client_main (env : environ) : main_action :=
  let env := setenv env "AZURE_OPENAI_API_KEY" "" in
  let env := setenv env "AZURE_OPENAI_ENDPOINT" "" in
  let env := setenv env "AZURE_OPENAI_DEPLOYMENT_NAME" "gpt-4.1" in
  if negb (credentials_present env) then SetupError required_vars
  else RunAgent env.

(** What the start-up of [run_mcp_agent] meets, step by step: [None]
    where the step succeeds, the exception where it raises. *)
Record startup : Type := mkStartup {
  model_init : option string;       (* AzureChatOpenAI(...) *)
  session_open : option string;     (* mcp_client.session(...) *)
  tools_load : option string;       (* load_mcp_tools(session) *)
  tool_names : list string;         (* the tools loaded *)
  test_invoke : option string;      (* llm.invoke(messages) *)
  agent_create : option string      (* create_agent(...) *)
}.

Inductive client_event : Type :=
| PrintInitializing
| PrintModelInitialized
| PrintModelFailed (e : string)
| PrintTool (name : string)
| PrintTestReply
| PrintAgentReady
| Chat (e : event)
| PrintRunFailed (e : string).     (* the handler of the outer [try] *)

(** The outer [try]: the loop runs only when every step before it has
    succeeded; an exception of any step, and the end of the input, reach
    the outer handler. *)
Definition session_body (agent_state : Type)
    (ainvoke : agent_state -> string -> turn_result * agent_state)
    (s : startup) (st : agent_state) (inputs : list string)
  : list client_event :=
  match session_open s with
  | Some e => [PrintRunFailed e]
  | None =>
      match tools_load s with
      | Some e => [PrintRunFailed e]
      | None =>
          (map PrintTool (tool_names s) ++
           match test_invoke s with
           | Some e => [PrintRunFailed e]
           | None =>
               PrintTestReply ::
               match agent_create s with
               | Some e => [PrintRunFailed e]
               | None =>
                   PrintAgentReady ::
                   (let '(ex, evs, _) := chat_loop agent_state ainvoke st inputs in
                    map Chat evs ++
                    match ex with
                    | Terminated => []
                    | InputExhausted => [PrintRunFailed "EOFError"]
                    end)
               end
           end)%list
      end
  end.

Definition run_mcp_agent (agent_state : Type)
    (ainvoke : agent_state -> string -> turn_result * agent_state)
    (s : startup) (st : agent_state) (inputs : list string)
  : list client_event :=
  PrintInitializing ::
  match model_init s with
  | Some e => [PrintModelFailed e]
  | None => PrintModelInitialized :: session_body agent_state ainvoke s st inputs
  end.

(** The conversation events of a run. *)
Definition chat_events (evs : list client_event) : list event :=
  flat_map (fun e => match e with
                     | Chat c => [c]
                     | _ => []
                     end) evs.

Definition startup_ok (s : startup) : bool :=
  match model_init s, session_open s, tools_load s, test_invoke s, agent_create s with
  | None, None, None, None, None => true
  | _, _, _, _, _ => false
  end.

End Client.
Import Client.

(* ===================================================================== *)
(** * Vocabulary of the further statements *)
(* ===================================================================== *)

(** [date.isoformat()]: the date written as YYYY-MM-DD. *)
Definition isoformat (y m d : N) : string :=
  zpad 4 y ++ "-" ++ zpad 2 m ++ "-" ++ zpad 2 d.

(** The groups after the year, on a month and a day written with two
    digits: checked on every month and day number. *)
Definition month_day_parsed (m d : N) : bool :=
  match match_groups [re_dash; re_m; re_dash; re_d]
                     ("-" ++ zpad 2 m ++ "-" ++ zpad 2 d) with
  | Some ([s1; mm; s2; dd], EmptyString) =>
      String.eqb s1 "-" && String.eqb mm (zpad 2 m)
      && String.eqb s2 "-" && String.eqb dd (zpad 2 d)
  | _ => false
  end.

(** A letter that [str.lower] changes. *)
Definition is_upper (c : ascii) : bool := upper_case c.

Definition has_upper (s : string) : bool :=
  existsb is_upper (list_ascii_of_string s).

(** A character of base64 text: of the alphabet, or the padding. *)
Definition is_b64_char (c : ascii) : bool :=
  match b64val c with
  | Some _ => true
  | None => Ascii.eqb c pad
  end.

(** The [name] field of a packaged result. *)
Definition packaged_name (v : json) : option string :=
  match v with
  | JArr [JObj kvs] =>
      match Dict.get "name" kvs with
      | Some (JStr s) => Some s
      | _ => None
      end
  | _ => None
  end.

(** The [mime_type] field of a packaged result. *)
Definition packaged_mime (v : json) : option string :=
  match v with
  | JArr [JObj kvs] =>
      match Dict.get "mime_type" kvs with
      | Some (JStr s) => Some s
      | _ => None
      end
  | _ => None
  end.

(** The tool calls of the turns the agent takes on [inputs], in order. *)
Fixpoint turns_tool_calls (agent_state : Type)
    (ainvoke : agent_state -> string -> turn_result * agent_state)
    (st : agent_state) (inputs : list string) : list string :=
  match inputs with
  | [] => []
  | u :: rest =>
      let (r, st') := ainvoke st u in
      (tool_calls r ++ turns_tool_calls agent_state ainvoke st' rest)%list
  end.

(** An agent whose every turn fails. *)
Definition failing_agent (st : nat) (user_input : string)
  : turn_result * nat :=
  ({| tool_calls := []; reply := inl "model error" |}, S st).

(** A PDF renderer for the examples: a signature followed by the text. *)
Definition sample_pdf_renderer (content : string) : string + list byte :=
  inr (encode_utf8 ("%PDF-1.3 " ++ content)).

(** An imaging library that cannot draw. *)
Definition failing_png_renderer (font : png_font) (content : string)
  : string + list byte :=
  inl "cannot draw".

(** Every path can be written. *)
Definition all_writable : write_access := fun _ => true.

(* ===================================================================== *)
(** * Facts about strings and patterns *)
(* ===================================================================== *)

Section BoundedCheck.

(** A boolean property checked on [0 .. k-1] holds below [k]. *)
Lemma forallb_below (P : N -> bool) (k : N) :
  forallb P (below k) = true ->
  forall n : N, (n < k)%N -> P n = true.
Proof.
  intros Hall n Hn.
  rewrite forallb_forall in Hall.
  apply Hall. unfold below.
  rewrite in_map_iff. exists (N.to_nat n). split.
  - apply N2Nat.id.
  - apply in_seq. lia.
Qed.

Lemma forallb_below2 (P : N -> N -> bool) (k1 k2 : N) :
  forallb (fun a => forallb (P a) (below k2)) (below k1) = true ->
  forall a b : N, (a < k1)%N -> (b < k2)%N -> P a b = true.
Proof.
  intros Hall a b Ha Hb.
  apply (forallb_below (P a) k2); [|exact Hb].
  exact (forallb_below (fun a => forallb (P a) (below k2)) k1 Hall a Ha).
Qed.

Lemma forallb_below3 (P : N -> N -> N -> bool) (k1 k2 k3 : N) :
  forallb (fun a => forallb (fun b => forallb (P a b) (below k3)) (below k2))
          (below k1) = true ->
  forall a b c : N, (a < k1)%N -> (b < k2)%N -> (c < k3)%N -> P a b c = true.
Proof.
  intros Hall a b c Ha Hb Hc.
  apply (forallb_below (P a b) k3); [|exact Hc].
  exact (forallb_below2 (fun a b => forallb (P a b) (below k3)) k1 k2
                        Hall a b Ha Hb).
Qed.

End BoundedCheck.

Lemma append_empty_r (s : string) : s ++ "" = s.
Proof. induction s as [|c s IH]; simpl; [reflexivity | now rewrite IH]. Qed.

Lemma append_assoc (a b c : string) : (a ++ b) ++ c = a ++ (b ++ c).
Proof. induction a as [|x a IH]; simpl; [reflexivity | now rewrite IH]. Qed.

Lemma match_atoms_app (p1 p2 : list atom) (s : string) :
  match_atoms (p1 ++ p2)%list s =
  match match_atoms p1 s with
  | Some (m1, r1) =>
      match match_atoms p2 r1 with
      | Some (m2, r2) => Some (m1 ++ m2, r2)
      | None => None
      end
  | None => None
  end.
Proof.
  revert s. induction p1 as [|a p1 IH]; intros s; simpl.
  - destruct (match_atoms p2 s) as [[m2 r2]|]; reflexivity.
  - destruct s as [|c s]; [reflexivity|].
    destruct (atom_ok a c); [|reflexivity].
    rewrite IH.
    destruct (match_atoms p1 s) as [[m1 r1]|]; [|reflexivity].
    destruct (match_atoms p2 r1) as [[m2 r2]|]; reflexivity.
Qed.

(** A match consumes exactly the text it reports. *)
Lemma match_atoms_split (p : list atom) (s m r : string) :
  match_atoms p s = Some (m, r) -> s = m ++ r.
Proof.
  revert s m r. induction p as [|a p IH]; intros s m r; simpl.
  - intros H. injection H as <- <-. reflexivity.
  - destruct s as [|c s]; [discriminate|].
    destruct (atom_ok a c); [|discriminate].
    destruct (match_atoms p s) as [[m' r']|] eqn:E; [|discriminate].
    intros H. injection H as <- <-. simpl. f_equal. now apply IH.
Qed.

(** A text that matches on its own still matches with more input behind. *)
Lemma match_atoms_extend (p : list atom) (s t : string) :
  fullmatch p s = true -> match_atoms p (s ++ t) = Some (s, t).
Proof.
  unfold fullmatch. revert s. induction p as [|a p IH]; intros s; simpl.
  - destruct s; [reflexivity | discriminate].
  - destruct s as [|c s]; [discriminate|]. simpl.
    destruct (atom_ok a c); [|discriminate].
    specialize (IH s).
    destruct (match_atoms p s) as [[m r]|] eqn:E; [|discriminate].
    destruct r; [|discriminate].
    intros _. rewrite IH by reflexivity.
    apply match_atoms_split in E. rewrite append_empty_r in E. now subst m.
Qed.

Lemma fullmatch_app (p1 p2 : list atom) (s1 s2 : string) :
  fullmatch p1 s1 = true -> fullmatch p2 s2 = true ->
  fullmatch (p1 ++ p2)%list (s1 ++ s2) = true.
Proof.
  intros H1 H2. unfold fullmatch.
  rewrite match_atoms_app, (match_atoms_extend _ _ s2 H1).
  unfold fullmatch in H2.
  destruct (match_atoms p2 s2) as [[m r]|]; [|discriminate].
  destruct r; [reflexivity | discriminate].
Qed.

Lemma fullmatch_lits (s : string) : fullmatch (lits s) s = true.
Proof.
  unfold fullmatch, lits. induction s as [|c s IH]; simpl; [reflexivity|].
  rewrite Ascii.eqb_refl.
  destruct (match_atoms (map Lit (list_ascii_of_string s)) s) as [[m r]|];
    [|discriminate].
  destruct r; [reflexivity | discriminate].
Qed.

(** The [strftime] fields are digits of the width of the directive. *)
Lemma zpad2_digits (n : N) :
  (n < 100)%N -> fullmatch (repeat digit 2) (zpad 2 n) = true.
Proof.
  apply (forallb_below (fun n => fullmatch (repeat digit 2) (zpad 2 n)) 100).
  vm_compute. reflexivity.
Qed.

Lemma zpad4_digits (n : N) :
  (n < 10000)%N -> fullmatch (repeat digit 4) (zpad 4 n) = true.
Proof.
  apply (forallb_below (fun n => fullmatch (repeat digit 4) (zpad 4 n)) 10000).
  vm_compute. reflexivity.
Qed.

Lemma datetime_bounds (t : datetime) :
  (year t < 10000 /\ month t < 100 /\ day t < 100
   /\ hour t < 100 /\ minute t < 100 /\ second t < 100)%N.
Proof.
  pose proof (datetime_ok t) as H. unfold valid_date, valid_time in H.
  repeat match goal with
         | H : _ && _ = true |- _ => apply andb_prop in H; destruct H
         end.
  assert (days_in_month (year t) (month t) <= 31)%N.
  { unfold days_in_month.
    repeat match goal with
           | |- context [match ?x with _ => _ end] => destruct x
           end; lia. }
  repeat match goal with
         | H : (_ <=? _)%N = true |- _ => apply N.leb_le in H
         | H : (_ <? _)%N = true |- _ => apply N.ltb_lt in H
         end.
  lia.
Qed.

(** The compact timestamp is eight digits, an underscore, six digits. *)
Lemma strftime_compact_shape (t : datetime) :
  fullmatch (repeat digit 8 ++ lits "_" ++ repeat digit 6)%list
            (strftime_compact t) = true.
Proof.
  destruct (datetime_bounds t) as (Hy & Hm & Hd & Hh & Hmi & Hs).
  unfold strftime_compact.
  change (repeat digit 8 ++ lits "_" ++ repeat digit 6)%list
    with (repeat digit 4 ++ repeat digit 2 ++ repeat digit 2 ++ lits "_"
          ++ repeat digit 2 ++ repeat digit 2 ++ repeat digit 2)%list.
  repeat (apply fullmatch_app;
          [first [now apply zpad4_digits | now apply zpad2_digits
                 | apply fullmatch_lits] |]).
  now apply zpad2_digits.
Qed.

Lemma synthesized_name_matches (t : datetime) (extension : string) :
  fullmatch (report_pattern extension)
            ("report_" ++ strftime_compact t ++ "." ++ extension) = true.
Proof.
  unfold report_pattern.
  apply (fullmatch_app (lits "report_")); [apply fullmatch_lits|].
  rewrite 2 app_assoc, <- (app_assoc (repeat digit 8)).
  apply fullmatch_app; [apply strftime_compact_shape|].
  apply (fullmatch_app (lits ".") (lits extension) "." extension);
    apply fullmatch_lits.
Qed.

Lemma lstrip_all_space (s : string) :
  all_chars isspace s = true -> lstrip s = "".
Proof.
  unfold all_chars. induction s as [|c s IH]; simpl; [reflexivity|].
  intros H. apply andb_prop in H. destruct H as [Hc Hs].
  rewrite Hc. now apply IH.
Qed.

Lemma strip_all_space (s : string) :
  all_chars isspace s = true -> strip s = "".
Proof. intros H. unfold strip. now rewrite lstrip_all_space. Qed.

(* ===================================================================== *)
(** * The filename policy *)
(* ===================================================================== *)

(** A supplied name that already carries the extension, in any case, is
    returned as it is. *)
Lemma get_report_filename_keeps (now : datetime) (file_name extension : string) :
  strip file_name <> "" ->
  endswith (lower file_name) ("." ++ extension) = true ->
  get_report_filename now (Some file_name) extension = file_name.
Proof.
  intros Hne Hend. unfold get_report_filename.
  destruct (String.eqb_spec (strip file_name) ""); [contradiction|].
  now rewrite Hend.
Qed.

(** A supplied name that lacks the extension gets it appended. *)
Lemma get_report_filename_appends (now : datetime) (file_name extension : string) :
  strip file_name <> "" ->
  endswith (lower file_name) ("." ++ extension) = false ->
  get_report_filename now (Some file_name) extension
  = file_name ++ "." ++ extension.
Proof.
  intros Hne Hend. unfold get_report_filename.
  destruct (String.eqb_spec (strip file_name) ""); [contradiction|].
  now rewrite Hend.
Qed.

(** C1. With extension "pdf": "foo" gives "foo.pdf"; "foo.pdf" and
    "FOO.PDF" are returned unchanged (the extension is compared without
    regard to case); an empty or absent filename gives a name matching
    report_\d{8}_\d{6}\.pdf, whatever the time of the call. *)
Theorem get_report_filename_pdf_examples (now : datetime) :
  get_report_filename now (Some "foo") "pdf" = "foo.pdf"
  /\ get_report_filename now (Some "foo.pdf") "pdf" = "foo.pdf"
  /\ get_report_filename now (Some "FOO.PDF") "pdf" = "FOO.PDF"
  /\ fullmatch (report_pattern "pdf")
               (get_report_filename now (Some "") "pdf") = true
  /\ fullmatch (report_pattern "pdf")
               (get_report_filename now None "pdf") = true.
Proof.
  repeat split; try reflexivity.
  - change (get_report_filename now (Some "") "pdf")
      with ("report_" ++ strftime_compact now ++ "." ++ "pdf").
    apply synthesized_name_matches.
  - change (get_report_filename now None "pdf")
      with ("report_" ++ strftime_compact now ++ "." ++ "pdf").
    apply synthesized_name_matches.
Qed.

(** C10. A filename made of white space only is discarded like an absent
    one: the result is the synthesized report_<timestamp>.<extension>,
    not the white space with the extension appended. *)
Theorem get_report_filename_blank (now : datetime) (file_name extension : string) :
  all_chars isspace file_name = true ->
  get_report_filename now (Some file_name) extension
  = get_report_filename now None extension
  /\ get_report_filename now (Some file_name) extension
     = "report_" ++ strftime_compact now ++ "." ++ extension
  /\ get_report_filename now (Some file_name) extension
     <> file_name ++ "." ++ extension.
Proof.
  intros Hsp.
  assert (E : get_report_filename now (Some file_name) extension
              = "report_" ++ strftime_compact now ++ "." ++ extension).
  { unfold get_report_filename. now rewrite (strip_all_space _ Hsp). }
  split; [exact E|]. split; [exact E|].
  rewrite E. destruct file_name as [|c s]; simpl; [discriminate|].
  intros H. injection H as Hc _. subst c.
  unfold all_chars in Hsp. simpl in Hsp. discriminate.
Qed.

Lemma get_report_filename_blank_witness :
  all_chars isspace "   " = true
  /\ get_report_filename example_now (Some "   ") "md"
     = "report_20251028_140307.md".
Proof.
  split; [reflexivity|].
  rewrite (proj1 (proj2 (get_report_filename_blank
                           example_now "   " "md" eq_refl))).
  reflexivity.
Defined.

(* ===================================================================== *)
(** * Base64 round trip *)
(* ===================================================================== *)

Module Base64Facts.

Local Open Scope N_scope.

(** The alphabet is read back: 64 characters, none of them the padding. *)
Lemma b64val_b64char (n : N) : n < 64 -> b64val (b64char n) = Some n.
Proof.
  intros H.
  assert (E : (match b64val (b64char n) with
               | Some m => m =? n
               | None => false
               end) = true).
  { revert n H. apply forallb_below. vm_compute. reflexivity. }
  destruct (b64val (b64char n)); [|discriminate].
  apply N.eqb_eq in E. now subst.
Qed.

Lemma b64char_not_pad (n : N) : n < 64 -> Ascii.eqb (b64char n) pad = false.
Proof.
  intros H.
  assert (E : negb (Ascii.eqb (b64char n) pad) = true).
  { revert n H. apply forallb_below. vm_compute. reflexivity. }
  now apply negb_true_iff in E.
Qed.

(** Every group is a 6-bit value. *)
Lemma sextet1_bound (x : N) : x < 256 -> sextet1 x < 64.
Proof.
  intros H. apply N.ltb_lt. revert x H.
  apply (forallb_below (fun x => sextet1 x <? 64)). vm_compute. reflexivity.
Qed.

Lemma low4_bound (x : N) : x < 256 -> N.land x 3 < 4.
Proof.
  intros H. apply N.ltb_lt. revert x H.
  apply (forallb_below (fun x => N.land x 3 <? 4)). vm_compute. reflexivity.
Qed.

Lemma high4_bound (z : N) : z < 256 -> N.shiftr z 6 < 4.
Proof.
  intros H. apply N.ltb_lt. revert z H.
  apply (forallb_below (fun z => N.shiftr z 6 <? 4)). vm_compute. reflexivity.
Qed.

Lemma sextet2_bound (x y : N) : x < 256 -> y < 256 -> sextet2 x y < 64.
Proof.
  intros Hx Hy. apply N.ltb_lt. revert x y Hx Hy.
  apply (forallb_below2 (fun x y => sextet2 x y <? 64)). vm_compute. reflexivity.
Qed.

Lemma sextet3_bound (y z : N) : y < 256 -> z < 256 -> sextet3 y z < 64.
Proof.
  intros Hy Hz. apply N.ltb_lt. revert y z Hy Hz.
  apply (forallb_below2 (fun y z => sextet3 y z <? 64)). vm_compute. reflexivity.
Qed.

Lemma sextet4_bound (z : N) : z < 256 -> sextet4 z < 64.
Proof.
  intros H. apply N.ltb_lt. revert z H.
  apply (forallb_below (fun z => sextet4 z <? 64)). vm_compute. reflexivity.
Qed.

(** The three bytes are read back from the four groups. *)
Lemma join1 (x y : N) :
  x < 256 -> y < 256 ->
  N.land (N.lor (N.shiftl (sextet1 x) 2) (N.shiftr (sextet2 x y) 4)) 255 = x.
Proof.
  intros Hx Hy. apply N.eqb_eq. revert x y Hx Hy.
  apply (forallb_below2
           (fun x y => N.land (N.lor (N.shiftl (sextet1 x) 2)
                                     (N.shiftr (sextet2 x y) 4)) 255 =? x)).
  vm_compute. reflexivity.
Qed.

(** The middle byte depends on its neighbours through two bits each. *)
Lemma join2_bits (p y q : N) :
  p < 4 -> y < 256 -> q < 4 ->
  N.land (N.lor (N.shiftl (N.lor (N.shiftl p 4) (N.shiftr y 4)) 4)
                (N.shiftr (N.lor (N.shiftl (N.land y 15) 2) q) 2)) 255 = y.
Proof.
  intros Hp Hy Hq. apply N.eqb_eq. revert p y q Hp Hy Hq.
  apply (forallb_below3
           (fun p y q =>
              N.land (N.lor (N.shiftl (N.lor (N.shiftl p 4) (N.shiftr y 4)) 4)
                            (N.shiftr (N.lor (N.shiftl (N.land y 15) 2) q) 2))
                     255 =? y)).
  vm_compute. reflexivity.
Qed.

Lemma join2 (x y z : N) :
  x < 256 -> y < 256 -> z < 256 ->
  N.land (N.lor (N.shiftl (sextet2 x y) 4) (N.shiftr (sextet3 y z) 2)) 255 = y.
Proof.
  intros Hx Hy Hz. unfold sextet2, sextet3.
  apply join2_bits; [now apply low4_bound | exact Hy | now apply high4_bound].
Qed.

Lemma join3 (y z : N) :
  y < 256 -> z < 256 ->
  N.land (N.lor (N.shiftl (sextet3 y z) 6) (sextet4 z)) 255 = z.
Proof.
  intros Hy Hz. apply N.eqb_eq. revert y z Hy Hz.
  apply (forallb_below2
           (fun y z => N.land (N.lor (N.shiftl (sextet3 y z) 6) (sextet4 z))
                              255 =? z)).
  vm_compute. reflexivity.
Qed.

Lemma to_N_lt (a : byte) : Byte.to_N a < 256.
Proof. pose proof (Byte.to_N_bounded a). lia. Qed.

Lemma low_byte_to_N (n : N) (a : byte) :
  N.land n 255 = Byte.to_N a -> low_byte n = a.
Proof. intros H. unfold low_byte. now rewrite H, Byte.of_to_N. Qed.

Lemma byte1_sextets (a b : byte) :
  byte1 (sextet1 (Byte.to_N a)) (sextet2 (Byte.to_N a) (Byte.to_N b)) = a.
Proof. apply low_byte_to_N, join1; apply to_N_lt. Qed.

Lemma byte1_sextets_tail (a : byte) :
  byte1 (sextet1 (Byte.to_N a)) (sextet2 (Byte.to_N a) 0) = a.
Proof. apply low_byte_to_N, join1; [apply to_N_lt | lia]. Qed.

Lemma byte2_sextets (a b c : byte) :
  byte2 (sextet2 (Byte.to_N a) (Byte.to_N b))
        (sextet3 (Byte.to_N b) (Byte.to_N c)) = b.
Proof. apply low_byte_to_N, join2; apply to_N_lt. Qed.

Lemma byte2_sextets_tail (a b : byte) :
  byte2 (sextet2 (Byte.to_N a) (Byte.to_N b)) (sextet3 (Byte.to_N b) 0) = b.
Proof. apply low_byte_to_N, join2; first [apply to_N_lt | lia]. Qed.

Lemma byte3_sextets (b c : byte) :
  byte3 (sextet3 (Byte.to_N b) (Byte.to_N c)) (sextet4 (Byte.to_N c)) = c.
Proof. apply low_byte_to_N, join3; apply to_N_lt. Qed.

(** Induction three bytes at a time, as the encoder recurses. *)
Lemma list_ind3 (A : Type) (P : list A -> Prop) :
  P [] -> (forall a, P [a]) -> (forall a b, P [a; b]) ->
  (forall a b c rest, P rest -> P (a :: b :: c :: rest)) ->
  forall l, P l.
Proof.
  intros H0 H1 H2 H3.
  assert (H : forall l, P l /\ (forall a, P (a :: l))
                        /\ (forall a b, P (a :: b :: l))).
  { induction l as [|c l (IH0 & IH1 & IH2)].
    - repeat split; auto.
    - repeat split; auto. }
  intros l. apply H.
Qed.

(** Decoding what the encoder wrote gives the bytes back. *)
Lemma b64decode_b64encode (bs : list byte) :
  b64decode (b64encode bs) = Some bs.
Proof.
  induction bs as [|a|a b|a b c rest IH] using list_ind3.
  - reflexivity.
  - cbn [b64encode b64decode].
    rewrite !b64val_b64char
      by first [apply sextet1_bound, to_N_lt
               | apply sextet2_bound; [apply to_N_lt | lia]].
    cbn -[byte1 sextet1 sextet2]. now rewrite byte1_sextets_tail.
  - cbn [b64encode b64decode].
    rewrite !b64val_b64char
      by first [apply sextet1_bound, to_N_lt
               | apply sextet2_bound; apply to_N_lt
               | apply sextet3_bound; [apply to_N_lt | lia]].
    rewrite b64char_not_pad by (apply sextet3_bound; [apply to_N_lt | lia]).
    cbn -[byte1 byte2 sextet1 sextet2 sextet3].
    now rewrite byte1_sextets, byte2_sextets_tail.
  - cbn [b64encode b64decode].
    rewrite !b64val_b64char
      by first [apply sextet1_bound, to_N_lt
               | apply sextet2_bound; apply to_N_lt
               | apply sextet3_bound; apply to_N_lt
               | apply sextet4_bound, to_N_lt].
    rewrite !b64char_not_pad
      by first [apply sextet3_bound; apply to_N_lt
               | apply sextet4_bound, to_N_lt].
    rewrite IH.
    now rewrite byte1_sextets, byte2_sextets, byte3_sextets.
Qed.

(** The encoded text is four characters for every three bytes begun. *)
Lemma b64encode_length (bs : list byte) :
  String.length (b64encode bs) = (4 * ((List.length bs + 2) / 3))%nat.
Proof.
  induction bs as [|a|a b|a b c rest IH] using list_ind3; try reflexivity.
  cbn [b64encode String.length List.length]. rewrite IH.
  replace (S (S (S (List.length rest))) + 2)%nat
    with (List.length rest + 2 + 1 * 3)%nat by lia.
  rewrite Nat.div_add by lia. lia.
Qed.

Lemma b64char_in_alphabet (n : N) : n < 64 -> is_b64_char (b64char n) = true.
Proof. intros H. unfold is_b64_char. now rewrite b64val_b64char. Qed.

(** The encoded text holds characters of the alphabet and padding only. *)
Lemma b64encode_alphabet (bs : list byte) :
  all_chars is_b64_char (b64encode bs) = true.
Proof.
  unfold all_chars.
  induction bs as [|a|a b|a b c rest IH] using list_ind3;
    cbn [b64encode list_ascii_of_string forallb];
    rewrite ?b64char_in_alphabet, ?IH;
    try reflexivity;
    first [ apply sextet1_bound | apply sextet2_bound
          | apply sextet3_bound | apply sextet4_bound ];
    first [apply to_N_lt | reflexivity].
Qed.

End Base64Facts.

(* ===================================================================== *)
(** * File packaging *)
(* ===================================================================== *)

Lemma no_slash_snoc (u : string) (c : ascii) :
  no_slash u = true -> Ascii.eqb c "/" = false ->
  no_slash (u ++ String c "") = true.
Proof.
  unfold no_slash, all_chars. intros Hu Hc.
  induction u as [|x u IH]; simpl in *.
  - now rewrite Hc.
  - apply andb_prop in Hu. destruct Hu as [Hx Hu]. rewrite Hx. now apply IH.
Qed.

Lemma basename_from_spec (p u d : string) :
  no_slash u = true -> is_dir_prefix d ->
  no_slash (basename_from (u ++ p) p) = true
  /\ exists dir, d ++ u ++ p = dir ++ basename_from (u ++ p) p
                 /\ is_dir_prefix dir.
Proof.
  revert u d. induction p as [|c p IH]; intros u d Hu Hd; simpl.
  - rewrite append_empty_r. split; [exact Hu|]. exists d. now split.
  - destruct (Ascii.eqb c "/") eqn:Ec.
    + apply Ascii.eqb_eq in Ec. subst c.
      destruct (IH "" (d ++ u ++ "/") eq_refl) as (Hn & dir & Hdir & Hpre).
      { right. exists (d ++ u). now rewrite append_assoc. }
      simpl in Hn, Hdir. split; [exact Hn|].
      exists dir. split; [|exact Hpre].
      rewrite <- Hdir. now rewrite !append_assoc.
    + destruct (IH (u ++ String c "") d (no_slash_snoc u c Hu Ec) Hd)
        as (Hn & dir & Hdir & Hpre).
      rewrite append_assoc in Hn, Hdir. simpl in Hn, Hdir.
      split; [exact Hn|]. exists dir. now split.
Qed.

(** The base name has no separator in it, and the path is a directory
    prefix followed by the base name. *)
Lemma basename_spec (p : string) :
  no_slash (basename p) = true
  /\ exists dir, p = dir ++ basename p /\ is_dir_prefix dir.
Proof.
  destruct (basename_from_spec p "" "" eq_refl (or_introl eq_refl))
    as (Hn & dir & Hdir & Hpre).
  split; [exact Hn|]. exists dir. now split.
Qed.

(** C2. For a path whose file can be read and any MIME type, the packaging
    step returns a sequence of exactly one descriptor with the fields data
    (the base64 text of the file's bytes), mime_type (as passed in) and
    name (the path without its directory part).  The data is base64 text
    of the file: it decodes to the bytes of the file, has four characters
    for every three bytes begun, and holds characters of the base64
    alphabet and padding only. *)
Theorem handle_file_result_descriptor
    (fs : filesystem) (file_path mime_type : string) (file_data : list byte) :
  fs file_path = Some file_data ->
  exists data name,
    handle_file_result fs file_path mime_type
    = Ok (JArr [ JObj [ ("data", JStr data);
                        ("mime_type", JStr mime_type);
                        ("name", JStr name) ] ])
    /\ data = b64encode file_data
    /\ name = basename file_path
    /\ b64decode data = Some file_data
    /\ String.length data = (4 * ((List.length file_data + 2) / 3))%nat
    /\ all_chars is_b64_char data = true
    /\ no_slash name = true
    /\ exists dir, file_path = dir ++ name /\ is_dir_prefix dir.
Proof.
  intros Hread. exists (b64encode file_data), (basename file_path).
  unfold handle_file_result. rewrite Hread.
  destruct (basename_spec file_path) as (Hn & Hdir).
  split; [reflexivity|]. split; [reflexivity|]. split; [reflexivity|].
  split; [apply Base64Facts.b64decode_b64encode|].
  split; [apply Base64Facts.b64encode_length|].
  split; [apply Base64Facts.b64encode_alphabet|].
  now split.
Qed.

(** The generators package the file they have just written: the step
    then always succeeds. *)
Lemma handle_file_result_after_write
    (fs : filesystem) (file_path mime_type : string) (content : list byte) :
  handle_file_result (fs_write fs file_path content) file_path mime_type
  = Ok (JArr [ JObj [ ("data", JStr (b64encode content));
                      ("mime_type", JStr mime_type);
                      ("name", JStr (basename file_path)) ] ]).
Proof.
  unfold handle_file_result, fs_write. now rewrite String.eqb_refl.
Qed.

(** Where [open] fails the step raises and returns nothing. *)
Lemma handle_file_result_unreadable (fs : filesystem) (file_path mime_type : string) :
  fs file_path = None ->
  handle_file_result fs file_path mime_type = Raise (OSError file_path).
Proof. intros H. unfold handle_file_result. now rewrite H. Qed.

Lemma handle_file_result_descriptor_witness :
  exists data name,
    handle_file_result (single_file "out/report.pdf" [x25; x50; x44; x46])
                       "out/report.pdf" "application/pdf"
    = Ok (JArr [ JObj [ ("data", JStr data);
                        ("mime_type", JStr "application/pdf");
                        ("name", JStr name) ] ])
    /\ data = "JVBERg=="
    /\ name = "report.pdf"
    /\ b64decode data = Some [x25; x50; x44; x46].
Proof.
  destruct (handle_file_result_descriptor
              (single_file "out/report.pdf" [x25; x50; x44; x46])
              "out/report.pdf" "application/pdf" [x25; x50; x44; x46] eq_refl)
    as (data & name & Hres & Hdata & Hname & Hdec & _).
  exists data, name. split; [exact Hres|].
  split; [rewrite Hdata; reflexivity|].
  split; [rewrite Hname; reflexivity | exact Hdec].
Defined.

(** C3. When the packaged file holds the bytes [file_data], the base64
    text in the result decodes to exactly those bytes, so the decoded
    length is the length of the file. *)
Theorem packaged_data_round_trip
    (fs : filesystem) (file_path mime_type : string) (file_data : list byte) :
  fs file_path = Some file_data ->
  exists data,
    packaged_data (handle_file_result fs file_path mime_type) = Some data
    /\ b64decode data = Some file_data
    /\ option_map (@List.length byte) (b64decode data)
       = Some (List.length file_data).
Proof.
  intros Hread. exists (b64encode file_data).
  unfold handle_file_result. rewrite Hread. cbn [packaged_data Dict.get].
  rewrite String.eqb_refl.
  rewrite Base64Facts.b64decode_b64encode. repeat split.
Qed.

Lemma packaged_data_round_trip_witness :
  exists data,
    packaged_data
      (handle_file_result (single_file "notes.md" [x68; x69; x0a; xff; x00])
                          "notes.md" "text/markdown") = Some data
    /\ b64decode data = Some [x68; x69; x0a; xff; x00].
Proof.
  destruct (packaged_data_round_trip
              (single_file "notes.md" [x68; x69; x0a; xff; x00])
              "notes.md" "text/markdown" [x68; x69; x0a; xff; x00] eq_refl)
    as (data & Hdata & Hdec & _).
  exists data. now split.
Defined.

(* ===================================================================== *)
(** * Date validation of the history operation *)
(* ===================================================================== *)

Module StrptimeFacts.

(** A successful match of the groups is a match of one alternative of
    each, one after the other. *)
Lemma match_groups_flat (gs : list group) :
  forall s caps r,
    match_groups gs s = Some (caps, r) ->
    exists p m, In p (flattenings gs) /\ match_atoms p s = Some (m, r).
Proof.
  induction gs as [|g gs IH]; intros s caps r; simpl.
  - intros H. injection H as <- <-. exists [], "". split; [now left | reflexivity].
  - induction g as [|alt alts IHalts]; [discriminate|]. simpl.
    destruct (match_atoms alt s) as [[captured rest]|] eqn:Ealt.
    + destruct (match_groups gs rest) as [[caps' r']|] eqn:Egs.
      * intros H. injection H as <- <-.
        destruct (IH _ _ _ Egs) as (p & m & Hin & Hm).
        exists (alt ++ p)%list, (captured ++ m). split.
        -- apply in_or_app. left. now apply in_map.
        -- now rewrite match_atoms_app, Ealt, Hm.
      * intros H. destruct (IHalts H) as (p & m & Hin & Hm).
        exists p, m. split; [|exact Hm]. apply in_or_app. now right.
    + intros H. destruct (IHalts H) as (p & m & Hin & Hm).
      exists p, m. split; [|exact Hm]. apply in_or_app. now right.
Qed.

Lemma in_range_widen (lo hi lo' hi' c : ascii) :
  (code lo' <=? code lo)%N = true -> (code hi <=? code hi')%N = true ->
  in_range lo hi c = true -> in_range lo' hi' c = true.
Proof.
  unfold in_range. intros H1 H2 H.
  apply andb_prop in H. destruct H as [Ha Hb].
  apply N.leb_le in H1, H2, Ha, Hb.
  apply andb_true_intro. split; apply N.leb_le; lia.
Qed.

Lemma atom_sub_sound (a b : atom) (c : ascii) :
  atom_sub a b = true -> atom_ok a c = true -> atom_ok b c = true.
Proof.
  destruct a as [x|lo hi], b as [y|lo' hi']; simpl; intros Hs Ha.
  - apply Ascii.eqb_eq in Hs, Ha. subst. apply Ascii.eqb_refl.
  - apply Ascii.eqb_eq in Ha. now subst.
  - discriminate.
  - apply andb_prop in Hs. destruct Hs as [H1 H2].
    now apply (in_range_widen lo hi).
Qed.

Lemma atoms_sub_sound (p q : list atom) :
  atoms_sub p q = true ->
  forall s m r, match_atoms p s = Some (m, r) -> match_atoms q s = Some (m, r).
Proof.
  revert q. induction p as [|a p IH]; intros [|b q] Hs s m r; simpl in *;
    try discriminate; [auto|].
  apply andb_prop in Hs. destruct Hs as [Hab Hpq].
  destruct s as [|c s]; [discriminate|].
  destruct (atom_ok a c) eqn:Ea; [|discriminate].
  rewrite (atom_sub_sound a b c Hab Ea).
  destruct (match_atoms p s) as [[m' r']|] eqn:Ep; [|discriminate].
  now rewrite (IH q Hpq _ _ _ Ep).
Qed.

(** Each way the expression of ['%Y-%m-%d'] can match is covered by a
    lenient pattern. *)
Lemma format_regex_lenient :
  forallb (fun p => existsb (atoms_sub p) lenient_date_patterns)
          (flattenings format_regex) = true.
Proof. vm_compute. reflexivity. Qed.

(** What [strptime] accepts has the lenient shape. *)
Lemma strptime_ymd_lenient (dt : string) (v : N * N * N) :
  strptime_ymd dt = Some v -> matches_any lenient_date_patterns dt = true.
Proof.
  unfold strptime_ymd.
  destruct (match_groups format_regex dt) as [[caps r]|] eqn:E; [|discriminate].
  intros H.
  assert (Hr : r = "").
  { do 5 (destruct caps as [|? caps]; try discriminate).
    destruct caps; [|discriminate]. destruct r; [reflexivity | discriminate]. }
  subst r. clear H.
  destruct (match_groups_flat _ _ _ _ E) as (p & m & Hin & Hm).
  pose proof format_regex_lenient as Hall.
  rewrite forallb_forall in Hall. specialize (Hall p Hin).
  apply existsb_exists in Hall. destruct Hall as (q & Hq & Hsub).
  unfold matches_any. apply existsb_exists. exists q. split; [exact Hq|].
  unfold fullmatch. now rewrite (atoms_sub_sound p q Hsub _ _ _ Hm).
Qed.

(** The strict pattern is one of the lenient ones. *)
Lemma strict_is_lenient (dt : string) :
  fullmatch pattern_YYYY_MM_DD dt = true ->
  matches_any lenient_date_patterns dt = true.
Proof.
  intros H. unfold matches_any. apply existsb_exists.
  exists pattern_YYYY_MM_DD. split; [|exact H].
  vm_compute. tauto.
Qed.

End StrptimeFacts.

(** What the validation does refuse, among the dates whose code points
    are below 256: a date that is not of the form YYYY-MM-DD even when
    read leniently (month and day of one or two digits, a one-digit day
    possibly preceded by a space) makes the history operation fail with
    the date validation error, and no request is sent. *)
Theorem get_history_weather_rejects_malformed
    (cfg : config) (up : upstream) (q dt : string) :
  matches_any lenient_date_patterns dt = false ->
  get_history_weather cfg up q dt
  = (Raise (ToolError (InvalidDateFormat dt)), []).
Proof.
  intros Hno. unfold get_history_weather.
  destruct (strptime_ymd dt) as [v|] eqn:E; [|reflexivity].
  apply StrptimeFacts.strptime_ymd_lenient in E. congruence.
Qed.

Lemma get_history_weather_rejects_malformed_witness :
  matches_any lenient_date_patterns "28/10/2025" = false
  /\ get_history_weather module_config (constant_upstream 200 example_body)
                         "London" "28/10/2025"
     = (Raise (ToolError (InvalidDateFormat "28/10/2025")), []).
Proof.
  split; [reflexivity|].
  apply (get_history_weather_rejects_malformed
           module_config (constant_upstream 200 example_body)
           "London" "28/10/2025").
  reflexivity.
Defined.

(** C4. The code misses what the claim, and its own docstring, comment
    and error message, ask for: "2025-1-5" and "2025-01- 5" do not match
    YYYY-MM-DD, yet [strptime] accepts them; the operation raises nothing
    and sends the request with the date as given. *)
Lemma get_history_weather_accepts_unpadded :
  fullmatch pattern_YYYY_MM_DD "2025-1-5" = false
  /\ get_history_weather module_config (constant_upstream 200 example_body)
                         "London" "2025-1-5"
     = (Ok example_body,
        [ {| req_url := "http://api.weatherapi.com/v1/history.json";
             req_params := [ ("key", JStr "b27fe189341c46fe8ad63338251509");
                             ("q", JStr "London");
                             ("dt", JStr "2025-1-5") ];
             req_timeout := 10 |} ])
  /\ fullmatch pattern_YYYY_MM_DD "2025-01- 5" = false
  /\ get_history_weather module_config (constant_upstream 200 example_body)
                         "London" "2025-01- 5"
     = (Ok example_body,
        [ {| req_url := "http://api.weatherapi.com/v1/history.json";
             req_params := [ ("key", JStr "b27fe189341c46fe8ad63338251509");
                             ("q", JStr "London");
                             ("dt", JStr "2025-01- 5") ];
             req_timeout := 10 |} ]).
Proof. repeat split; reflexivity. Qed.

(** A date of the right shape that is not in the calendar is refused
    too. *)
Example get_history_weather_rejects_feb_30 :
  fullmatch pattern_YYYY_MM_DD "2025-02-30" = true
  /\ get_history_weather module_config (constant_upstream 200 example_body)
                         "London" "2025-02-30"
     = (Raise (ToolError (InvalidDateFormat "2025-02-30")), []).
Proof. split; reflexivity. Qed.

(* ===================================================================== *)
(** * Weather dispatch *)
(* ===================================================================== *)

Section Dispatch.

Variable cfg : config.
Variable up : upstream.

(** With the placeholder credential nothing is sent. *)
Lemma make_weather_request_unconfigured (endpoint : string) (params : Dict.dict) :
  API_KEY cfg = PLACEHOLDER_KEY ->
  make_weather_request cfg up endpoint params
  = (Raise (ToolError ApiKeyNotConfigured), []).
Proof.
  intros H. unfold make_weather_request. now rewrite H, String.eqb_refl.
Qed.

(** With any other credential exactly one request is sent, and the
    outcome is what the handlers make of the reply. *)
Lemma make_weather_request_configured (endpoint : string) (params : Dict.dict) :
  API_KEY cfg <> PLACEHOLDER_KEY ->
  make_weather_request cfg up endpoint params
  = (except_clauses (try_block (up (weather_request cfg endpoint params))),
     [weather_request cfg endpoint params]).
Proof.
  intros H. unfold make_weather_request.
  destruct (String.eqb_spec (API_KEY cfg) PLACEHOLDER_KEY); [contradiction|].
  reflexivity.
Qed.

(** At most one request, whatever the credential and the reply. *)
Lemma make_weather_request_at_most_one (endpoint : string) (params : Dict.dict) :
  (List.length (snd (make_weather_request cfg up endpoint params)) <= 1)%nat.
Proof.
  unfold make_weather_request.
  destruct (String.eqb (API_KEY cfg) PLACEHOLDER_KEY); simpl; lia.
Qed.

End Dispatch.


(** The function body hands [days] over as it is, whatever its value. *)
Lemma get_forecast_weather_passes_days
    (cfg : config) (up : upstream) (q : string) (days : Z) :
  API_KEY cfg <> PLACEHOLDER_KEY ->
  exists request,
    snd (get_forecast_weather cfg up q days) = [request]
    /\ Dict.get "days" (req_params request) = Some (JInt days).
Proof.
  intros H. unfold get_forecast_weather.
  rewrite make_weather_request_configured by exact H.
  eexists. split; [reflexivity|]. reflexivity.
Qed.




(** C6, as the code has it. With the credential at the placeholder value,
    every dispatch fails with the configuration error: the current
    weather query, the forecast query, and the history query whose date
    passes validation (a malformed date is reported first).  No weather
    operation sends a request. *)
Theorem placeholder_key_blocks_dispatch (cfg : config) (up : upstream) :
  API_KEY cfg = PLACEHOLDER_KEY ->
  (forall endpoint params,
      make_weather_request cfg up endpoint params
      = (Raise (ToolError ApiKeyNotConfigured), []))
  /\ (forall q,
         get_current_weather cfg up q
         = (Raise (ToolError ApiKeyNotConfigured), []))
  /\ (forall q days,
         In days days_Literal ->
         call_get_forecast_weather cfg up q days
         = (Raise (ToolError ApiKeyNotConfigured), []))
  /\ (forall q dt,
         get_history_weather cfg up q dt
         = (Raise (ToolError (match strptime_ymd dt with
                              | Some _ => ApiKeyNotConfigured
                              | None => InvalidDateFormat dt
                              end)), []))
  /\ (forall q days dt,
         snd (get_current_weather cfg up q) = []
         /\ snd (call_get_forecast_weather cfg up q days) = []
         /\ snd (get_history_weather cfg up q dt) = []).
Proof.
  intros Hkey.
  pose proof (make_weather_request_unconfigured cfg up) as Hm.
  split; [intros; now apply Hm|].
  split; [intros; now apply Hm|].
  split.
  { intros q days Hin. unfold call_get_forecast_weather.
    replace (existsb (Z.eqb days) days_Literal) with true.
    - now apply Hm.
    - symmetry. apply existsb_exists. exists days. split; [exact Hin|].
      apply Z.eqb_refl. }
  split.
  { intros q dt. unfold get_history_weather.
    destruct (strptime_ymd dt); [now apply Hm | reflexivity]. }
  intros q days dt. repeat split.
  - unfold get_current_weather. now rewrite Hm.
  - unfold call_get_forecast_weather, get_forecast_weather.
    destruct (existsb (Z.eqb days) days_Literal); [now rewrite Hm | reflexivity].
  - unfold get_history_weather.
    destruct (strptime_ymd dt); [now rewrite Hm | reflexivity].
Qed.

Lemma placeholder_key_blocks_dispatch_witness :
  API_KEY placeholder_config = PLACEHOLDER_KEY
  /\ get_current_weather placeholder_config
                         (constant_upstream 200 example_body) "London"
     = (Raise (ToolError ApiKeyNotConfigured), []).
Proof.
  split; [reflexivity|].
  apply (placeholder_key_blocks_dispatch
           placeholder_config (constant_upstream 200 example_body) eq_refl).
Defined.

(** C6, as stated, fails: with the placeholder credential the history
    query given a malformed date fails with the date validation error,
    not with the configuration error. *)
Lemma placeholder_key_history_reports_date :
  API_KEY placeholder_config = PLACEHOLDER_KEY
  /\ get_history_weather placeholder_config
                         (constant_upstream 200 example_body)
                         "London" "tomorrow"
     = (Raise (ToolError (InvalidDateFormat "tomorrow")), []).
Proof. split; reflexivity. Qed.

(* ===================================================================== *)
(** * Replies with status 200 *)
(* ===================================================================== *)

Section OkReply.

Variable kvs : Dict.dict.

Lemma dict_mem_get (key : string) :
  Dict.mem key kvs = true <-> exists v, Dict.get key kvs = Some v.
Proof.
  induction kvs as [|[k v] d IH]; simpl.
  - split; [discriminate | intros [v H]; discriminate].
  - destruct (String.eqb k key); simpl.
    + split; [intros _; now exists v | reflexivity].
    + exact IH.
Qed.

(** What the handlers make of a 200 reply whose body is an object. *)
Lemma handlers_on_object :
  except_clauses (try_block (HttpResponse 200 (Some (JObj kvs))))
  = match Dict.get "error" kvs with
    | None => Ok (JObj kvs)
    | Some err =>
        match py_getitem err "message" with
        | inr message => Raise (ToolError (WeatherApiError message))
        | inl e => Raise (ToolError (UnexpectedError e))
        end
    end.
Proof.
  unfold try_block. cbn [bind_raised is_success fst snd Z.leb Z.compare
                           Pos.compare Pos.compare_cont andb lift_py py_in].
  destruct (Dict.mem "error" kvs) eqn:Em.
  - apply dict_mem_get in Em. destruct Em as [err Eg].
    cbn [py_getitem bind_raised lift_py]. rewrite Eg.
    cbn [py_getitem bind_raised lift_py].
    destruct (py_getitem err "message"); reflexivity.
  - destruct (Dict.get "error" kvs) as [err|] eqn:Eg; [|reflexivity].
    assert (Dict.mem "error" kvs = true) by (apply dict_mem_get; eauto).
    congruence.
Qed.

End OkReply.

(** C7, as the code has it. When the reply has status 200 and a body that
    is a JSON object, the dispatch raises an error exactly when the
    object has an "error" member, with the upstream message when that
    member is an object holding one; an object without an "error" member
    is returned unchanged. *)
Theorem ok_reply_with_object
    (cfg : config) (up : upstream) (endpoint : string) (params kvs : Dict.dict) :
  API_KEY cfg <> PLACEHOLDER_KEY ->
  up (weather_request cfg endpoint params) = HttpResponse 200 (Some (JObj kvs)) ->
  ((exists e, fst (make_weather_request cfg up endpoint params)
              = Raise (ToolError e))
   <-> Dict.mem "error" kvs = true)
  /\ (Dict.mem "error" kvs = false ->
      fst (make_weather_request cfg up endpoint params) = Ok (JObj kvs))
  /\ (forall ekvs message,
         Dict.get "error" kvs = Some (JObj ekvs) ->
         Dict.get "message" ekvs = Some message ->
         fst (make_weather_request cfg up endpoint params)
         = Raise (ToolError (WeatherApiError message))).
Proof.
  intros Hkey Hup.
  rewrite make_weather_request_configured by exact Hkey.
  cbn [fst]. rewrite Hup, handlers_on_object.
  split; [|split].
  - rewrite dict_mem_get. split.
    + intros [e He]. destruct (Dict.get "error" kvs) as [err|]; [eauto | discriminate].
    + intros [err Herr]. rewrite Herr.
      destruct (py_getitem err "message"); eauto.
  - intros Hno. destruct (Dict.get "error" kvs) as [err|] eqn:Eg; [|reflexivity].
    assert (Dict.mem "error" kvs = true) by (apply dict_mem_get; eauto).
    congruence.
  - intros ekvs message He Hm. rewrite He. cbn [py_getitem]. now rewrite Hm.
Qed.

Lemma ok_reply_with_object_witness :
  fst (make_weather_request module_config
         (constant_upstream 200 no_location_body)
         "current" [("q", JStr "Nowhere")])
  = Raise (ToolError (WeatherApiError (JStr "No matching location found."))).
Proof.
  assert (Hkey : API_KEY module_config <> PLACEHOLDER_KEY) by discriminate.
  exact (proj2 (proj2 (ok_reply_with_object
                         module_config (constant_upstream 200 no_location_body)
                         "current" [("q", JStr "Nowhere")]
                         [ ("error", JObj [ ("code", JInt 1006);
                                            ("message", JStr "No matching location found.") ]) ]
                         Hkey eq_refl))
               [ ("code", JInt 1006);
                 ("message", JStr "No matching location found.") ]
               (JStr "No matching location found.") eq_refl eq_refl).
Defined.

(** C7, as stated, fails: a 200 reply whose body is the JSON value null
    holds no error object, yet the dispatch raises (the membership test
    itself fails) instead of returning the body. *)
Lemma ok_reply_with_null_raises :
  get_current_weather module_config (constant_upstream 200 JNull) "London"
  = (Raise (ToolError (UnexpectedError TypeError)),
     [ {| req_url := "http://api.weatherapi.com/v1/current.json";
          req_params := [ ("key", JStr "b27fe189341c46fe8ad63338251509");
                          ("q", JStr "London") ];
          req_timeout := 10 |} ]).
Proof. reflexivity. Qed.

(* ===================================================================== *)
(** * The operation catalog *)
(* ===================================================================== *)

(** C8. The listing takes no argument and returns the object
    {"tools": [...]} holding exactly the seven names of the three weather
    queries followed by the four document generators, in the order of
    their registration, the same at every call. *)
Theorem list_tools_catalog :
  list_tools tt
  = JObj [ ("tools",
            JArr (map JStr (names_of_kind WeatherQuery
                            ++ names_of_kind DocumentGenerator)%list)) ]
  /\ List.length (names_of_kind WeatherQuery) = 3%nat
  /\ List.length (names_of_kind DocumentGenerator) = 4%nat
  /\ List.length (names_of_kind WeatherQuery
                  ++ names_of_kind DocumentGenerator)%list = 7%nat
  /\ NoDup (names_of_kind WeatherQuery ++ names_of_kind DocumentGenerator)%list
  /\ (names_of_kind WeatherQuery ++ names_of_kind DocumentGenerator)%list
     = [ "get_current_weather"; "get_forecast_weather"; "get_history_weather";
         "generate_pdf_report"; "generate_docx_report"; "generate_png_image";
         "generate_md_report" ]
  /\ (forall u v : unit, list_tools u = list_tools v).
Proof.
  repeat split.
  cbn. repeat constructor; cbn; intuition discriminate.
Qed.

(* ===================================================================== *)
(** * The conversation loop *)
(* ===================================================================== *)

Section LoopFacts.

Variable agent_state : Type.
Variable ainvoke : agent_state -> string -> turn_result * agent_state.

Lemma is_exit_command_iff (user_input : string) :
  is_exit_command user_input = true
  <-> lower user_input = "quit" \/ lower user_input = "exit".
Proof.
  unfold is_exit_command. simpl. rewrite orb_false_r, orb_true_iff.
  now rewrite !String.eqb_eq.
Qed.

Lemma agent_inputs_app (a b : list event) :
  agent_inputs (a ++ b) = (agent_inputs a ++ agent_inputs b)%list.
Proof. unfold agent_inputs. apply flat_map_app. Qed.

Lemma agent_inputs_turn (user_input : string) (r : turn_result) :
  agent_inputs (turn_events user_input r) = [user_input].
Proof.
  unfold turn_events, agent_inputs. cbn [flat_map app].
  rewrite flat_map_app. cbn [app].
  assert (E : flat_map (fun e => match e with
                                 | AgentInvoked content => [content]
                                 | _ => []
                                 end) (map ToolInvoked (tool_calls r)) = []).
  { induction (tool_calls r); simpl; auto. }
  rewrite E. destruct (reply r); reflexivity.
Qed.

(** The agent is invoked once for each line typed before the first exit
    command, in order, and for no other. *)
Lemma agent_inputs_run (inputs : list string) (st : agent_state) :
  agent_inputs (snd (fst (chat_loop agent_state ainvoke st inputs))) = before_exit inputs.
Proof.
  revert st.
  induction inputs as [|u rest IH]; intros st; cbn [chat_loop before_exit].
  - reflexivity.
  - destruct (is_exit_command u); [reflexivity|].
    destruct (ainvoke st u) as [r st'].
    specialize (IH st').
    destruct (chat_loop agent_state ainvoke st' rest) as [[ex evs] st''].
    cbn [fst snd] in *.
    now rewrite agent_inputs_app, agent_inputs_turn, IH.
Qed.

(** C9. An input that is "quit" or "exit" up to case ends the session at
    once: the loop stops, the agent is not invoked for it and nothing
    that is typed after it reaches the agent or a tool.  Any other
    input is handed to the agent, and the loop goes on with the next
    line whether the turn succeeded or failed. *)
Theorem chat_loop_quit (st : agent_state) (user_input : string)
    (rest : list string) :
  (is_exit_command user_input = true
   <-> lower user_input = "quit" \/ lower user_input = "exit")
  /\ (is_exit_command user_input = true ->
      chat_loop agent_state ainvoke st (user_input :: rest)
      = (Terminated, [ReadInput user_input; PrintExiting], st)
      /\ agent_inputs (snd (fst (chat_loop agent_state ainvoke st (user_input :: rest)))) = []
      /\ tool_invocations (snd (fst (chat_loop agent_state ainvoke st (user_input :: rest)))) = [])
  /\ (is_exit_command user_input = false ->
      chat_loop agent_state ainvoke st (user_input :: rest)
      = (fst (fst (chat_loop agent_state ainvoke (snd (ainvoke st user_input)) rest)),
         (turn_events user_input (fst (ainvoke st user_input))
          ++ snd (fst (chat_loop agent_state ainvoke (snd (ainvoke st user_input)) rest)))%list,
         snd (chat_loop agent_state ainvoke (snd (ainvoke st user_input)) rest))
      /\ agent_inputs (snd (fst (chat_loop agent_state ainvoke st (user_input :: rest))))
         = user_input :: before_exit rest)
  /\ (forall inputs st0,
         agent_inputs (snd (fst (chat_loop agent_state ainvoke st0 inputs))) = before_exit inputs).
Proof.
  split; [apply is_exit_command_iff|].
  split; [|split; [|intros; apply agent_inputs_run]].
  - intros Hq. cbn [chat_loop]. rewrite Hq. repeat split.
  - intros Hq. split.
    + cbn [chat_loop]. rewrite Hq.
      destruct (ainvoke st user_input) as [r st']. cbn [fst snd].
      destruct (chat_loop agent_state ainvoke st' rest) as [[ex evs] st''].
      reflexivity.
    + rewrite agent_inputs_run. simpl. now rewrite Hq.
Qed.

End LoopFacts.

Lemma chat_loop_quit_witness :
  is_exit_command "QUIT" = true
  /\ is_exit_command "Exit" = true
  /\ is_exit_command "weather in Paris" = false
  /\ chat_loop nat echo_agent 0 ["weather in Paris"; "QUIT"; "make a pdf"]
     = (Terminated,
        [ ReadInput "weather in Paris"; AgentInvoked "weather in Paris";
          PrintReply "weather in Paris"; ReadInput "QUIT"; PrintExiting ],
        1%nat)
  /\ chat_loop nat echo_agent 1 ["QUIT"; "make a pdf"]
     = (Terminated, [ReadInput "QUIT"; PrintExiting], 1%nat).
Proof.
  do 4 (split; [reflexivity|]).
  exact (proj1 (proj1 (proj2 (chat_loop_quit nat echo_agent 1%nat "QUIT"
                                             ["make a pdf"])) eq_refl)).
Defined.

(* ===================================================================== *)
(** * Further facts about strings *)
(* ===================================================================== *)

Module StringFacts.

Lemma substring_0_length (s : string) : substring 0 (String.length s) s = s.
Proof. induction s as [|c s IH]; cbn; [reflexivity | now rewrite IH]. Qed.

Lemma append_length (a b : string) :
  String.length (a ++ b) = (String.length a + String.length b)%nat.
Proof. induction a as [|c a IH]; cbn; [reflexivity | now rewrite IH]. Qed.

(** [endswith] is: the suffix, after some prefix. *)
Lemma endswith_iff (s suffix : string) :
  endswith s suffix = true <-> exists pre, s = pre ++ suffix.
Proof.
  unfold endswith. split.
  - revert suffix. induction s as [|c s IH]; intros suffix H;
      apply andb_prop in H; destruct H as [Hl He];
      apply Nat.leb_le in Hl; apply String.eqb_eq in He.
    + destruct suffix; [now exists "" | cbn in Hl; lia].
    + destruct (Nat.eq_dec (String.length suffix) (S (String.length s))) as [E|E].
      * rewrite E in He. cbn [String.length] in He.
        rewrite Nat.sub_diag in He. cbn [substring] in He.
        rewrite substring_0_length in He. now exists "".
      * cbn [String.length] in Hl, He.
        replace (S (String.length s) - String.length suffix)%nat
          with (S (String.length s - String.length suffix)) in He by lia.
        cbn [substring] in He.
        destruct (IH suffix) as [pre Hpre].
        { apply andb_true_intro. split.
          - apply Nat.leb_le. lia.
          - now apply String.eqb_eq. }
        exists (String c pre). cbn. now rewrite <- Hpre.
  - intros [pre ->]. induction pre as [|c pre IH].
    + cbn [append]. rewrite Nat.leb_refl, Nat.sub_diag, substring_0_length.
      now rewrite String.eqb_refl.
    + apply andb_prop in IH. destruct IH as [Hl He].
      apply Nat.leb_le in Hl.
      cbn [append String.length].
      apply andb_true_intro. split; [apply Nat.leb_le; lia|].
      replace (S (String.length (pre ++ suffix)) - String.length suffix)%nat
        with (S (String.length (pre ++ suffix) - String.length suffix)) by lia.
      cbn [substring]. exact He.
Qed.

(** Two ways to split one string overlap in a common middle. *)
Lemma append_eq_append (a b c d : string) :
  a ++ b = c ++ d ->
  exists l, (a = c ++ l /\ d = l ++ b) \/ (c = a ++ l /\ b = l ++ d).
Proof.
  revert c. induction a as [|x a IH]; intros c H.
  - exists c. right. now split.
  - destruct c as [|y c].
    + exists (String x a). left. cbn in *. now split.
    + cbn in H. injection H as -> H.
      destruct (IH c H) as [l [[-> ->] | [-> ->]]]; exists l; [left | right];
        now split.
Qed.

Lemma append_inj_length (a b a' b' : string) :
  a ++ b = a' ++ b' -> String.length a = String.length a' ->
  a = a' /\ b = b'.
Proof.
  revert a'. induction a as [|x a IH]; intros [|y a'] H Hl; cbn in *;
    try discriminate; [now split|].
  injection H as -> H. injection Hl as Hl.
  destruct (IH a' H Hl) as [-> ->]. now split.
Qed.

Lemma list_ascii_of_append (a b : string) :
  list_ascii_of_string (a ++ b)
  = (list_ascii_of_string a ++ list_ascii_of_string b)%list.
Proof. induction a as [|c a IH]; cbn; [reflexivity | now rewrite IH]. Qed.

Lemma all_chars_app (p : ascii -> bool) (a b : string) :
  all_chars p (a ++ b) = all_chars p a && all_chars p b.
Proof. unfold all_chars. now rewrite list_ascii_of_append, forallb_app. Qed.

Lemma has_upper_app (a b : string) :
  has_upper (a ++ b) = has_upper a || has_upper b.
Proof. unfold has_upper. now rewrite list_ascii_of_append, existsb_app. Qed.

Lemma lower_app (a b : string) : lower (a ++ b) = lower a ++ lower b.
Proof. induction a as [|c a IH]; cbn; [reflexivity | now rewrite IH]. Qed.

Lemma lower_char_not_upper (c : ascii) : is_upper (lower_char c) = false.
Proof. destruct c as [[] [] [] [] [] [] [] []]; reflexivity. Qed.

Lemma has_upper_lower (s : string) : has_upper (lower s) = false.
Proof.
  unfold has_upper. induction s as [|c s IH]; cbn; [reflexivity|].
  now rewrite lower_char_not_upper, IH.
Qed.

(** White space and [strip]. *)
Lemma rstrip_cons_nonspace (c : ascii) (s : string) :
  isspace c = false -> rstrip (String c s) <> "".
Proof.
  intros Hc. cbn [rstrip]. destruct (rstrip s); [rewrite Hc|]; discriminate.
Qed.

Lemma lstrip_cases (s : string) :
  (lstrip s = "" /\ all_chars isspace s = true)
  \/ exists c t, lstrip s = String c t /\ isspace c = false.
Proof.
  unfold all_chars. induction s as [|c s IH]; cbn.
  - left. now split.
  - destruct (isspace c) eqn:Ec.
    + exact IH.
    + right. exists c, s. now split.
Qed.

(** Only white space strips to nothing. *)
Lemma strip_empty_iff (s : string) :
  strip s = "" <-> all_chars isspace s = true.
Proof.
  split; [|apply strip_all_space].
  unfold strip. intros H.
  destruct (lstrip_cases s) as [[_ Hs] | (c & t & Hl & Hc)]; [exact Hs|].
  rewrite Hl in H. now apply rstrip_cons_nonspace in H.
Qed.

Lemma strip_app_nonblank (a b : string) :
  all_chars isspace b = false -> strip (a ++ b) <> "".
Proof.
  intros Hb H. apply strip_empty_iff in H.
  rewrite all_chars_app, Hb, andb_false_r in H. discriminate.
Qed.

(** The decimal fields have the width of their directive and are read
    back by [int]. *)
Lemma zpad2_length (n : N) : (n < 100)%N -> String.length (zpad 2 n) = 2%nat.
Proof.
  intros H. apply Nat.eqb_eq. revert n H.
  apply (forallb_below (fun n => (String.length (zpad 2 n) =? 2)%nat) 100).
  vm_compute. reflexivity.
Qed.

Lemma zpad4_length (n : N) : (n < 10000)%N -> String.length (zpad 4 n) = 4%nat.
Proof.
  intros H. apply Nat.eqb_eq. revert n H.
  apply (forallb_below (fun n => (String.length (zpad 4 n) =? 4)%nat) 10000).
  vm_compute. reflexivity.
Qed.

Lemma py_int_zpad2 (n : N) : (n < 100)%N -> py_int (zpad 2 n) = n.
Proof.
  intros H. apply N.eqb_eq. revert n H.
  apply (forallb_below (fun n => (py_int (zpad 2 n) =? n)%N) 100).
  vm_compute. reflexivity.
Qed.

Lemma py_int_zpad4 (n : N) : (n < 10000)%N -> py_int (zpad 4 n) = n.
Proof.
  intros H. apply N.eqb_eq. revert n H.
  apply (forallb_below (fun n => (py_int (zpad 4 n) =? n)%N) 10000).
  vm_compute. reflexivity.
Qed.

Lemma zpad2_inj (a b : N) :
  (a < 100)%N -> (b < 100)%N -> zpad 2 a = zpad 2 b -> a = b.
Proof.
  intros Ha Hb E. rewrite <- (py_int_zpad2 a Ha), <- (py_int_zpad2 b Hb).
  now rewrite E.
Qed.

Lemma zpad4_inj (a b : N) :
  (a < 10000)%N -> (b < 10000)%N -> zpad 4 a = zpad 4 b -> a = b.
Proof.
  intros Ha Hb E. rewrite <- (py_int_zpad4 a Ha), <- (py_int_zpad4 b Hb).
  now rewrite E.
Qed.

End StringFacts.
Import StringFacts.

(* ===================================================================== *)
(** * Further facts about the filename policy *)
(* ===================================================================== *)

Lemma synthesized_nonblank (now : datetime) (extension : string) :
  strip ("report_" ++ strftime_compact now ++ "." ++ extension) <> "".
Proof.
  intros H. apply strip_empty_iff in H. discriminate H.
Qed.

Lemma ends_with_extension (pre extension : string) :
  lower extension = extension ->
  endswith (lower (pre ++ "." ++ extension)) ("." ++ extension) = true.
Proof.
  intros Hl. apply endswith_iff. exists (lower pre).
  rewrite lower_app. cbn [lower append]. now rewrite Hl.
Qed.

(** The result is never blank and, for an extension in lower case, ends
    with it. *)
Lemma get_report_filename_shape
    (now : datetime) (file_name : option string) (extension : string) :
  lower extension = extension ->
  strip (get_report_filename now file_name extension) <> ""
  /\ endswith (lower (get_report_filename now file_name extension))
              ("." ++ extension) = true.
Proof.
  intros Hl.
  assert (Hs : strip ("report_" ++ strftime_compact now ++ "." ++ extension) <> ""
               /\ endswith (lower ("report_" ++ strftime_compact now
                                             ++ "." ++ extension))
                           ("." ++ extension) = true).
  { split; [apply synthesized_nonblank|].
    rewrite <- append_assoc. now apply ends_with_extension. }
  unfold get_report_filename.
  destruct file_name as [f|]; [|exact Hs].
  destruct (String.eqb_spec (strip f) ""); [exact Hs|].
  destruct (endswith (lower f) ("." ++ extension)) eqn:Ee; cbn [negb].
  - now split.
  - split; [|now apply ends_with_extension].
    apply strip_app_nonblank. reflexivity.
Qed.

(** X1. For an extension written in lower case, the name returned is never
    blank, ends with "." and the extension whatever the case of its
    letters, and is left unchanged when it is given back to the function:
    the policy is idempotent. *)
Theorem get_report_filename_normal_form
    (now : datetime) (file_name : option string) (extension : string) :
  lower extension = extension ->
  strip (get_report_filename now file_name extension) <> ""
  /\ endswith (lower (get_report_filename now file_name extension))
              ("." ++ extension) = true
  /\ forall now',
       get_report_filename now' (Some (get_report_filename now file_name extension))
                           extension
       = get_report_filename now file_name extension.
Proof.
  intros Hl.
  destruct (get_report_filename_shape now file_name extension Hl) as [Hn He].
  split; [exact Hn|]. split; [exact He|].
  intros now'. now apply get_report_filename_keeps.
Qed.

Lemma get_report_filename_normal_form_witness :
  lower "pdf" = "pdf"
  /\ get_report_filename example_now (Some "Q3 Report") "pdf" = "Q3 Report.pdf"
  /\ get_report_filename example_now
       (Some (get_report_filename example_now (Some "Q3 Report") "pdf")) "pdf"
     = get_report_filename example_now (Some "Q3 Report") "pdf".
Proof.
  split; [reflexivity|]. split; [reflexivity|].
  exact (proj2 (proj2 (get_report_filename_normal_form
                         example_now (Some "Q3 Report") "pdf" eq_refl))
               example_now).
Defined.

(** X2. The extension is compared as it is given, against the lowered
    filename: when the extension holds an upper-case letter no filename
    is ever recognised as carrying it, and it is appended to every
    non-blank filename, also to one that ends with it already. *)
Theorem get_report_filename_upper_extension
    (now : datetime) (file_name extension : string) :
  has_upper extension = true ->
  strip file_name <> "" ->
  get_report_filename now (Some file_name) extension
  = file_name ++ "." ++ extension.
Proof.
  intros Hu Hn. apply get_report_filename_appends; [exact Hn|].
  destruct (endswith (lower file_name) ("." ++ extension)) eqn:E; [|reflexivity].
  apply endswith_iff in E. destruct E as [pre E].
  pose proof (has_upper_lower file_name) as Hlow.
  rewrite E, !has_upper_app, Hu, !orb_true_r in Hlow. discriminate.
Qed.

Lemma get_report_filename_upper_extension_witness :
  has_upper "PDF" = true
  /\ get_report_filename example_now (Some "a.PDF") "PDF" = "a.PDF.PDF".
Proof.
  split; [reflexivity|].
  rewrite (get_report_filename_upper_extension example_now "a.PDF" "PDF" eq_refl).
  - reflexivity.
  - discriminate.
Defined.

(** X3. Two synthesized names are the same exactly when the two calls
    fall in the same second: names made in different seconds never
    collide, names made within one second always do. *)
Theorem synthesized_names_collide_iff
    (now1 now2 : datetime) (extension : string) :
  get_report_filename now1 None extension
  = get_report_filename now2 None extension
  <-> (year now1 = year now2 /\ month now1 = month now2
       /\ day now1 = day now2 /\ hour now1 = hour now2
       /\ minute now1 = minute now2 /\ second now1 = second now2).
Proof.
  destruct (datetime_bounds now1) as (Hy1 & Hm1 & Hd1 & Hh1 & Hi1 & Hs1).
  destruct (datetime_bounds now2) as (Hy2 & Hm2 & Hd2 & Hh2 & Hi2 & Hs2).
  unfold get_report_filename, strftime_compact. split.
  - intros H. cbn [append] in H.
    repeat match type of H with
           | String ?c _ = String ?c _ => injection H as H
           end.
    rewrite !append_assoc in H.
    apply append_inj_length in H;
      [|now rewrite !zpad4_length]. destruct H as [Ey H].
    apply append_inj_length in H;
      [|now rewrite !zpad2_length]. destruct H as [Em H].
    apply append_inj_length in H;
      [|now rewrite !zpad2_length]. destruct H as [Ed H].
    cbn [append] in H. injection H as H. rewrite !append_assoc in H.
    apply append_inj_length in H;
      [|now rewrite !zpad2_length]. destruct H as [Eh H].
    apply append_inj_length in H;
      [|now rewrite !zpad2_length]. destruct H as [Ei H].
    apply append_inj_length in H;
      [|now rewrite !zpad2_length]. destruct H as [Es _].
    repeat split; first [now apply zpad4_inj | now apply zpad2_inj].
  - intros (-> & -> & -> & -> & -> & ->). reflexivity.
Qed.

(* ===================================================================== *)
(** * Further facts about base names *)
(* ===================================================================== *)

Lemma basename_from_no_slash (p tail : string) :
  no_slash p = true -> basename_from tail p = tail.
Proof.
  unfold no_slash, all_chars. revert tail.
  induction p as [|c p IH]; intros tail H; cbn in *; [reflexivity|].
  apply andb_prop in H. destruct H as [Hc Hp].
  apply negb_true_iff in Hc. rewrite Hc. now apply IH.
Qed.

Lemma basename_from_after_slash (d n tail : string) :
  basename_from tail (d ++ "/" ++ n) = basename n.
Proof.
  revert tail. induction d as [|c d IH]; intros tail; cbn.
  - reflexivity.
  - destruct (Ascii.eqb c "/"); apply IH.
Qed.

Lemma no_slash_app (a b : string) :
  no_slash (a ++ b) = no_slash a && no_slash b.
Proof. apply all_chars_app. Qed.

Lemma lower_keeps_slash (s : string) : no_slash (lower s) = no_slash s.
Proof.
  unfold no_slash, all_chars. induction s as [|c s IH]; cbn; [reflexivity|].
  rewrite IH. f_equal.
  destruct c as [[] [] [] [] [] [] [] []]; reflexivity.
Qed.

(** X4. The base name of a path is what follows its last slash: a
    directory part in front of a name without slash is dropped, whatever
    it is, and a name without slash is its own base name. *)
Theorem basename_drops_directory (d n : string) :
  no_slash n = true ->
  basename (d ++ "/" ++ n) = n /\ basename n = n.
Proof.
  intros Hn.
  assert (E : basename n = n) by (now apply basename_from_no_slash).
  split; [|exact E].
  unfold basename at 1. now rewrite basename_from_after_slash.
Qed.

Lemma basename_drops_directory_witness :
  no_slash "report.pdf" = true
  /\ basename ("/tmp/out" ++ "/" ++ "report.pdf") = "report.pdf".
Proof.
  split; [reflexivity|].
  exact (proj1 (basename_drops_directory "/tmp/out" "report.pdf" eq_refl)).
Defined.

(** A suffix without slash of a path is a suffix of its base name. *)
Lemma basename_keeps_suffix (p suffix : string) :
  no_slash suffix = true ->
  endswith (lower p) suffix = true ->
  endswith (lower (basename p)) suffix = true.
Proof.
  intros Hs He.
  destruct (basename_spec p) as (_ & dir & Hp & Hdir).
  apply endswith_iff in He. destruct He as [pre He].
  rewrite Hp, lower_app in He.
  apply endswith_iff.
  destruct (append_eq_append _ _ _ _ He) as [l [[Hd Hsuf] | [Hpre Hb]]].
  - destruct l as [|x l].
    + exists "". now rewrite Hsuf.
    + exfalso. destruct Hdir as [-> | [d' ->]].
      * destruct pre; discriminate Hd.
      * rewrite lower_app in Hd. cbn [lower] in Hd.
        change (String (lower_char "/") "") with "/" in Hd.
        assert (Hl : no_slash (String x l) = false).
        { destruct (append_eq_append _ _ _ _ Hd) as [k [[_ Hk] | [_ Hk]]].
          - rewrite Hk, no_slash_app. cbn. apply andb_false_r.
          - destruct k as [|y k]; cbn in Hk.
            + now rewrite <- Hk.
            + injection Hk as _ Hk. destruct k; discriminate Hk. }
        rewrite Hsuf, no_slash_app, Hl in Hs. discriminate.
  - exists l. exact Hb.
Qed.

(** X5. The name under which a generated file is packaged is the base name
    of the policy's filename: for an extension in lower case and without
    slash it has no directory part and ends with "." and the extension,
    whatever filename the caller supplied. *)
Theorem packaged_name_has_extension
    (now : datetime) (file_name : option string) (extension : string) :
  lower extension = extension ->
  no_slash extension = true ->
  no_slash (basename (get_report_filename now file_name extension)) = true
  /\ endswith (lower (basename (get_report_filename now file_name extension)))
              ("." ++ extension) = true.
Proof.
  intros Hl Hs. split; [apply basename_spec|].
  apply basename_keeps_suffix.
  - cbn. exact Hs.
  - now apply get_report_filename_shape.
Qed.

Lemma packaged_name_has_extension_witness :
  basename (get_report_filename example_now (Some "out/Summary.PDF") "pdf")
  = "Summary.PDF"
  /\ endswith (lower (basename (get_report_filename
                                  example_now (Some "out/Summary.PDF") "pdf")))
              ".pdf" = true.
Proof.
  split; [reflexivity|].
  exact (proj2 (packaged_name_has_extension
                  example_now (Some "out/Summary.PDF") "pdf" eq_refl eq_refl)).
Defined.

(* ===================================================================== *)
(** * Further facts about base64 *)
(* ===================================================================== *)

Lemma is_b64_char_ascii (c : ascii) :
  is_b64_char c = true -> (code c <? 128)%N = true.
Proof. destruct c as [[] [] [] [] [] [] [] []]; vm_compute; congruence. Qed.

(** X9. The base64 text of [n] bytes has four characters for every three
    bytes begun, and holds nothing but characters of the alphabet and
    the padding sign, all of them ASCII: decoding it as UTF-8, as the
    packaging step does, cannot fail. *)
Theorem b64encode_text (bs : list byte) :
  String.length (b64encode bs) = (4 * ((List.length bs + 2) / 3))%nat
  /\ all_chars is_b64_char (b64encode bs) = true
  /\ all_chars (fun c => (code c <? 128)%N) (b64encode bs) = true.
Proof.
  split; [apply Base64Facts.b64encode_length|].
  pose proof (Base64Facts.b64encode_alphabet bs) as H.
  split; [exact H|].
  unfold all_chars in *. rewrite forallb_forall in *.
  intros c Hc. apply is_b64_char_ascii. now apply H.
Qed.

(* ===================================================================== *)
(** * The document generators *)
(* ===================================================================== *)

Lemma encode_utf8_app (a b : string) :
  encode_utf8 (a ++ b) = (encode_utf8 a ++ encode_utf8 b)%list.
Proof. unfold encode_utf8. now rewrite list_ascii_of_append, flat_map_app. Qed.

Section GeneratorFacts.

Variable can_write : write_access.
Variable fs : filesystem.

Lemma write_and_package_writable (file_path mime_type : string) (content : list byte) :
  can_write file_path = true ->
  write_and_package can_write fs file_path mime_type content
  = (inr (JArr [ JObj [ ("data", JStr (b64encode content));
                        ("mime_type", JStr mime_type);
                        ("name", JStr (basename file_path)) ] ]),
     fs_write fs file_path content).
Proof.
  intros H. unfold write_and_package, store. rewrite H.
  now rewrite handle_file_result_after_write.
Qed.

Lemma write_and_package_unwritable (file_path mime_type : string) (content : list byte) :
  can_write file_path = false ->
  write_and_package can_write fs file_path mime_type content
  = (inl (FromExn (OSError file_path)), fs).
Proof. intros H. unfold write_and_package, store. now rewrite H. Qed.

(** What a successful write-and-package has done. *)
Lemma write_and_package_success (file_path mime_type : string)
    (content : list byte) (v : json) (fs' : filesystem) :
  write_and_package can_write fs file_path mime_type content = (inr v, fs') ->
  can_write file_path = true
  /\ fs' = fs_write fs file_path content
  /\ v = JArr [ JObj [ ("data", JStr (b64encode content));
                       ("mime_type", JStr mime_type);
                       ("name", JStr (basename file_path)) ] ].
Proof.
  destruct (can_write file_path) eqn:E.
  - rewrite write_and_package_writable by exact E.
    intros H. injection H as <- <-. now repeat split.
  - rewrite write_and_package_unwritable by exact E. discriminate.
Qed.

(** X6. When the Markdown file can be written, the generator returns one
    descriptor of type text/markdown named after the file, whose data
    decodes to the heading line, an empty line and then the UTF-8 bytes
    of the content. *)
Theorem generate_md_report_round_trip
    (now_name now_heading : datetime) (content : string)
    (file_name : option string) :
  can_write (get_report_filename now_name file_name "md") = true ->
  exists data fs',
    generate_md_report can_write fs now_name now_heading content file_name
    = (inr (JArr [ JObj [ ("data", JStr data);
                          ("mime_type", JStr "text/markdown");
                          ("name", JStr (basename (get_report_filename
                                                     now_name file_name "md"))) ] ]),
       fs')
    /\ b64decode data
       = Some (encode_utf8 ("# Report Generated on "
                            ++ strftime_heading now_heading ++ newline ++ newline)
               ++ encode_utf8 content)%list.
Proof.
  intros Hw. unfold generate_md_report.
  rewrite write_and_package_writable by exact Hw. cbn [uncaught fst snd].
  eexists _, _. split; [reflexivity|].
  rewrite Base64Facts.b64decode_b64encode.
  unfold md_text. now rewrite <- encode_utf8_app, !append_assoc.
Qed.

Section LibraryFacts.

Variable render_pdf : string -> string + list byte.
Variable render_docx : string -> string + list byte.
Variable render_png : png_font -> string -> string + list byte.

(** X7. Whenever the PDF or the DOCX generator returns, it returns one
    descriptor with the MIME type of its format whose data decodes to
    exactly the bytes the rendering library produced for the content,
    and those bytes are in the file named by the filename policy. *)
Theorem generated_document_is_rendering
    (now : datetime) (content : string) (file_name : option string)
    (v : json) (fs' : filesystem) :
  (generate_pdf_report render_pdf can_write fs now content file_name = (inr v, fs') ->
   exists document,
     render_pdf content = inr document
     /\ packaged_mime v = Some "application/pdf"
     /\ option_map b64decode (packaged_data (Ok v)) = Some (Some document)
     /\ fs' (get_report_filename now file_name "pdf") = Some document)
  /\ (generate_docx_report render_docx can_write fs now content file_name = (inr v, fs') ->
      exists document,
        render_docx content = inr document
        /\ packaged_mime v
           = Some "application/vnd.openxmlformats-officedocument.wordprocessingml.document"
        /\ option_map b64decode (packaged_data (Ok v)) = Some (Some document)
        /\ fs' (get_report_filename now file_name "docx") = Some document).
Proof.
  split.
  - unfold generate_pdf_report.
    destruct (render_pdf content) as [e|document]; [discriminate|].
    destruct (write_and_package can_write fs (get_report_filename now file_name "pdf")
                                "application/pdf" document) as [[c|w] fs1] eqn:E;
      cbn [uncaught fst snd]; [discriminate|].
    intros H. injection H as <- <-.
    apply write_and_package_success in E. destruct E as (_ & -> & ->).
    exists document. split; [reflexivity|]. split; [reflexivity|].
    cbn [packaged_data Dict.get String.eqb Ascii.eqb Bool.eqb option_map].
    rewrite Base64Facts.b64decode_b64encode. split; [reflexivity|].
    unfold fs_write. now rewrite String.eqb_refl.
  - unfold generate_docx_report.
    destruct (render_docx content) as [e|document]; [discriminate|].
    destruct (write_and_package
                can_write fs (get_report_filename now file_name "docx")
                "application/vnd.openxmlformats-officedocument.wordprocessingml.document"
                document) as [[c|w] fs1] eqn:E;
      cbn [uncaught fst snd]; [discriminate|].
    intros H. injection H as <- <-.
    apply write_and_package_success in E. destruct E as (_ & -> & ->).
    exists document. split; [reflexivity|]. split; [reflexivity|].
    cbn [packaged_data Dict.get String.eqb Ascii.eqb Bool.eqb option_map].
    rewrite Base64Facts.b64decode_b64encode. split; [reflexivity|].
    unfold fs_write. now rewrite String.eqb_refl.
Qed.

(** X8. The PNG generator never lets an exception through as it is: every
    failure, of the imaging library, of the write or of the packaging,
    leaves as the one "Failed to generate PNG image" tool error.  A
    missing Arial font is no failure: the text is drawn in the default
    font and the image is packaged. *)
Theorem generate_png_image_failures
    (truetype : font_outcome) (now : datetime) (content : string)
    (file_name : option string) :
  (forall e, fst (generate_png_image render_png truetype can_write fs now
                                     content file_name) = inl e ->
             exists c, e = FailedToGeneratePng c)
  /\ (forall image,
         truetype = FontIOError ->
         render_png DefaultFont content = inr image ->
         can_write (get_report_filename now file_name "png") = true ->
         generate_png_image render_png truetype can_write fs now content file_name
         = (inr (JArr [ JObj [ ("data", JStr (b64encode image));
                               ("mime_type", JStr "image/png");
                               ("name", JStr (basename (get_report_filename
                                                          now file_name "png"))) ] ]),
            fs_write fs (get_report_filename now file_name "png") image)).
Proof.
  split.
  - intros e. unfold generate_png_image.
    destruct truetype as [| |e0]; cbn -[write_and_package].
    + destruct (render_png Arial20 content) as [e1|image]; cbn -[write_and_package].
      * intros H. injection H as <-. eauto.
      * destruct (fst (write_and_package _ _ _ _ _)); intros H;
          [injection H as <-; eauto | discriminate].
    + destruct (render_png DefaultFont content) as [e1|image]; cbn -[write_and_package].
      * intros H. injection H as <-. eauto.
      * destruct (fst (write_and_package _ _ _ _ _)); intros H;
          [injection H as <-; eauto | discriminate].
    + intros H. injection H as <-. eauto.
  - intros image -> Hr Hw. unfold generate_png_image. rewrite Hr.
    now rewrite write_and_package_writable by exact Hw.
Qed.

End LibraryFacts.

End GeneratorFacts.

Lemma generate_md_report_round_trip_witness :
  exists data fs',
    generate_md_report all_writable empty_fs example_now example_now
                       "Sunny." (Some "notes")
    = (inr (JArr [ JObj [ ("data", JStr data);
                          ("mime_type", JStr "text/markdown");
                          ("name", JStr "notes.md") ] ]), fs')
    /\ b64decode data
       = Some (encode_utf8 ("# Report Generated on 2025-10-28 14:03:07"
                            ++ newline ++ newline ++ "Sunny.")).
Proof.
  destruct (generate_md_report_round_trip
              all_writable empty_fs example_now example_now "Sunny." (Some "notes")
              eq_refl) as (data & fs' & Hres & Hdec).
  exists data, fs'. split; [exact Hres|]. rewrite Hdec. reflexivity.
Defined.

(* ===================================================================== *)
(** * Dates written as YYYY-MM-DD are read back *)
(* ===================================================================== *)

Module IsoFacts.

Lemma month_day_groups (m d : N) :
  (1 <= m <= 12)%N -> (1 <= d <= 31)%N ->
  match_groups [re_dash; re_m; re_dash; re_d]
               ("-" ++ zpad 2 m ++ "-" ++ zpad 2 d)
  = Some (["-"; zpad 2 m; "-"; zpad 2 d], "").
Proof.
  intros Hm Hd.
  assert (E : month_day_parsed m d = true).
  { assert (A : implb ((1 <=? m) && (1 <=? d))%N (month_day_parsed m d) = true).
    { apply (forallb_below2
               (fun m d => implb ((1 <=? m) && (1 <=? d))%N (month_day_parsed m d))
               13 32); [|lia|lia].
      vm_compute. reflexivity. }
    replace ((1 <=? m) && (1 <=? d))%N with true in A; [exact A|].
    symmetry. apply andb_true_intro. split; apply N.leb_le; lia. }
  unfold month_day_parsed in E.
  destruct (match_groups _ _) as [[caps r]|]; [|discriminate E].
  do 4 (destruct caps as [|? caps]; [discriminate E|]).
  destruct caps; [|discriminate E].
  destruct r; [|discriminate E].
  repeat (apply andb_prop in E; destruct E as [E ?]).
  repeat match goal with
         | H : String.eqb _ _ = true |- _ => apply String.eqb_eq in H; subst
         end.
  reflexivity.
Qed.

Lemma valid_date_bounds (y m d : N) :
  valid_date y m d = true ->
  (1 <= y < 10000 /\ 1 <= m <= 12 /\ 1 <= d <= 31)%N.
Proof.
  unfold valid_date. intros H.
  repeat match goal with
         | H : _ && _ = true |- _ => apply andb_prop in H; destruct H
         end.
  assert (days_in_month y m <= 31)%N.
  { unfold days_in_month.
    repeat match goal with
           | |- context [match ?x with _ => _ end] => destruct x
           end; lia. }
  repeat match goal with
         | H : (_ <=? _)%N = true |- _ => apply N.leb_le in H
         end.
  lia.
Qed.

Lemma match_groups_year (y : N) (rest : string) :
  (y < 10000)%N ->
  match_groups format_regex (zpad 4 y ++ rest)
  = match match_groups [re_dash; re_m; re_dash; re_d] rest with
    | Some (caps, r) => Some (zpad 4 y :: caps, r)
    | None => None
    end.
Proof.
  intros Hy. unfold format_regex.
  change (match_groups (re_Y :: [re_dash; re_m; re_dash; re_d]) (zpad 4 y ++ rest))
    with (match match_atoms (repeat digit 4) (zpad 4 y ++ rest) with
          | Some (captured, rest') =>
              match match_groups [re_dash; re_m; re_dash; re_d] rest' with
              | Some (caps, r) => Some (captured :: caps, r)
              | None => None
              end
          | None => None
          end).
  now rewrite (match_atoms_extend _ _ rest (zpad4_digits y Hy)).
Qed.

End IsoFacts.

(** X10. Every date of the calendar written as YYYY-MM-DD is accepted by
    the validation of the history operation and read back as the same
    year, month and day; the operation then dispatches the request with
    the date as given. *)
Theorem iso_date_accepted
    (cfg : config) (up : upstream) (q : string) (y m d : N) :
  valid_date y m d = true ->
  strptime_ymd (isoformat y m d) = Some (y, m, d)
  /\ fullmatch pattern_YYYY_MM_DD (isoformat y m d) = true
  /\ get_history_weather cfg up q (isoformat y m d)
     = make_weather_request cfg up "history"
         [("q", JStr q); ("dt", JStr (isoformat y m d))].
Proof.
  intros Hv.
  destruct (IsoFacts.valid_date_bounds y m d Hv) as (Hy & Hm & Hd).
  assert (E : strptime_ymd (isoformat y m d) = Some (y, m, d)).
  { unfold strptime_ymd, isoformat.
    rewrite IsoFacts.match_groups_year by lia.
    rewrite IsoFacts.month_day_groups by lia.
    rewrite py_int_zpad4, !py_int_zpad2 by lia.
    now rewrite Hv. }
  split; [exact E|]. split.
  - unfold isoformat, pattern_YYYY_MM_DD.
    apply fullmatch_app; [apply zpad4_digits; lia|].
    apply (fullmatch_app (lits "-") _ "-"); [reflexivity|].
    apply fullmatch_app; [apply zpad2_digits; lia|].
    apply (fullmatch_app (lits "-") _ "-"); [reflexivity|].
    apply zpad2_digits; lia.
  - unfold get_history_weather. now rewrite E.
Qed.

Lemma iso_date_accepted_witness :
  valid_date 2024 2 29 = true
  /\ isoformat 2024 2 29 = "2024-02-29"
  /\ strptime_ymd (isoformat 2024 2 29) = Some (2024, 2, 29)%N.
Proof.
  split; [reflexivity|]. split; [reflexivity|].
  exact (proj1 (iso_date_accepted module_config (constant_upstream 200 example_body)
                                  "London" 2024 2 29 eq_refl)).
Defined.

(* ===================================================================== *)
(** * Further facts about the weather dispatch *)
(* ===================================================================== *)

Module DictFacts.

Lemma get_set_same (k : string) (v : json) (d : Dict.dict) :
  Dict.get k (Dict.set k v d) = Some v.
Proof.
  induction d as [|[k0 w] d IH]; cbn.
  - now rewrite String.eqb_refl.
  - destruct (String.eqb k0 k) eqn:E; cbn; rewrite E; [reflexivity | exact IH].
Qed.

Lemma get_set_other (k k' : string) (v : json) (d : Dict.dict) :
  k' <> k -> Dict.get k (Dict.set k' v d) = Dict.get k d.
Proof.
  intros Hne.
  assert (Hf : String.eqb k' k = false) by (now apply String.eqb_neq).
  induction d as [|[k0 w] d IH]; cbn.
  - now rewrite Hf.
  - destruct (String.eqb_spec k0 k') as [->|Hk]; cbn.
    + now rewrite Hf.
    + destruct (String.eqb k0 k); [reflexivity | exact IH].
Qed.

Lemma get_not_in (k : string) (d : Dict.dict) :
  ~ In k (map fst d) -> Dict.get k d = None.
Proof.
  induction d as [|[k0 w] d IH]; cbn; [reflexivity|].
  intros H. destruct (String.eqb_spec k0 k) as [->|_].
  - exfalso. apply H. now left.
  - apply IH. intros Hin. apply H. now right.
Qed.

(** Lookup in [{**d1, **d2}]: the entry of [d2] when it has one, the
    entry of [d1] otherwise. *)
Lemma get_merge (k : string) (d2 d1 : Dict.dict) :
  NoDup (map fst d2) ->
  Dict.get k (Dict.merge d1 d2)
  = match Dict.get k d2 with
    | Some v => Some v
    | None => Dict.get k d1
    end.
Proof.
  unfold Dict.merge. revert d1.
  induction d2 as [|[k0 v0] d2 IH]; intros d1 Hnd; cbn [fold_left fst snd map].
  - reflexivity.
  - cbn [map fst] in Hnd. inversion Hnd as [|? ? Hnotin Hnd']; subst.
    rewrite IH by exact Hnd'. cbn [Dict.get].
    destruct (String.eqb_spec k0 k) as [->|Hk].
    + now rewrite (get_not_in k d2 Hnotin), get_set_same.
    + destruct (Dict.get k d2); [reflexivity|]. now apply get_set_other.
Qed.

End DictFacts.

(** X11. The parameters sent are the caller's, with the credential added
    under "key": every parameter the caller passes arrives unchanged, the
    credential is sent unless the caller passes a "key" of its own, which
    then replaces it, and nothing else is sent. *)
Theorem weather_request_params
    (cfg : config) (endpoint : string) (params : Dict.dict) (k : string) :
  NoDup (map fst params) ->
  Dict.get k (req_params (weather_request cfg endpoint params))
  = match Dict.get k params with
    | Some v => Some v
    | None => if String.eqb k "key" then Some (JStr (API_KEY cfg)) else None
    end.
Proof.
  intros Hnd. unfold weather_request. cbn [req_params].
  rewrite DictFacts.get_merge by exact Hnd.
  destruct (Dict.get k params); [reflexivity|].
  cbn [Dict.get]. rewrite String.eqb_sym. reflexivity.
Qed.

Lemma weather_request_params_witness :
  Dict.get "key" (req_params (weather_request module_config "forecast"
                                [("q", JStr "Paris"); ("days", JInt 3)]))
  = Some (JStr (API_KEY module_config))
  /\ Dict.get "key" (req_params (weather_request module_config "forecast"
                                   [("q", JStr "Paris"); ("key", JStr "mine")]))
     = Some (JStr "mine").
Proof.
  split.
  - rewrite weather_request_params; [reflexivity|].
    repeat constructor; cbn; intuition discriminate.
  - rewrite weather_request_params; [reflexivity|].
    repeat constructor; cbn; intuition discriminate.
Defined.

(** X12. The dispatch returns a value in one case only: the credential is
    not the placeholder, the reply has a 2xx status, its body is JSON,
    and the membership test for "error" on the body is false; what it
    returns is then that body.  In particular a body with an "error"
    member is never returned. *)
Theorem make_weather_request_ok_iff
    (cfg : config) (up : upstream) (endpoint : string) (params : Dict.dict)
    (data : json) :
  fst (make_weather_request cfg up endpoint params) = Ok data
  <-> (API_KEY cfg <> PLACEHOLDER_KEY
       /\ exists status_code,
           up (weather_request cfg endpoint params)
           = HttpResponse status_code (Some data)
           /\ is_success status_code = true
           /\ py_in "error" data = inr false).
Proof.
  unfold make_weather_request.
  destruct (String.eqb_spec (API_KEY cfg) PLACEHOLDER_KEY) as [Hk|Hk]; cbn [fst].
  { split; [discriminate | intros [H _]; contradiction]. }
  destruct (up (weather_request cfg endpoint params)) as [st body|e|e];
    unfold try_block; cbn [bind_raised fst snd].
  - destruct (is_success st) eqn:Es; cbn [bind_raised].
    + destruct body as [body|]; cbn [bind_raised].
      * destruct (py_in "error" body) as [e|[|]] eqn:Ein; cbn [lift_py bind_raised].
        -- split; [discriminate|].
           intros (_ & st' & H & _ & Hin). injection H as _ <-. congruence.
        -- split.
           ++ destruct (py_getitem body "error") as [e|err]; cbn [lift_py bind_raised];
                [discriminate|].
              destruct (py_getitem err "message"); cbn [lift_py bind_raised];
                discriminate.
           ++ intros (_ & st' & H & _ & Hin). injection H as _ <-. congruence.
        -- cbn [except_clauses]. split.
           ++ intros H. injection H as <-. split; [exact Hk|].
              exists st. now repeat split.
           ++ intros (_ & st' & H & _ & _). now injection H as _ <-.
      * split; [discriminate|]. intros (_ & st' & H & _). discriminate H.
    + split; [discriminate|].
      intros (_ & st' & H & Es' & _). injection H as <- _. congruence.
  - split; [discriminate|]. intros (_ & st' & H & _). discriminate H.
  - split; [discriminate|]. intros (_ & st' & H & _). discriminate H.
Qed.

(** X13. A reply whose status is not 2xx is reported by its status code
    alone: the body is not looked at, so the message the upstream sends
    with such a reply does not reach the caller. *)
Theorem error_status_hides_body
    (cfg : config) (up : upstream) (endpoint : string) (params : Dict.dict)
    (status_code : Z) (body : option json) :
  API_KEY cfg <> PLACEHOLDER_KEY ->
  is_success status_code = false ->
  up (weather_request cfg endpoint params) = HttpResponse status_code body ->
  fst (make_weather_request cfg up endpoint params)
  = Raise (ToolError (HttpError status_code)).
Proof.
  intros Hk Hs Hup.
  rewrite make_weather_request_configured by exact Hk.
  cbn [fst]. rewrite Hup. unfold try_block. cbn [bind_raised fst snd].
  now rewrite Hs.
Qed.

Lemma error_status_hides_body_witness :
  fst (get_current_weather module_config
                           (constant_upstream 400 no_location_body) "Nowhere")
  = Raise (ToolError (HttpError 400)).
Proof.
  apply (error_status_hides_body
           module_config (constant_upstream 400 no_location_body)
           "current" [("q", JStr "Nowhere")] 400 (Some no_location_body)).
  - discriminate.
  - reflexivity.
  - reflexivity.
Defined.

Lemma handlers_never_report_configuration (reply : http_outcome) :
  except_clauses (try_block reply) <> Raise (ToolError ApiKeyNotConfigured).
Proof.
  unfold try_block.
  destruct reply as [st body|e|e]; cbn [bind_raised fst snd]; [|discriminate..].
  destruct (is_success st); cbn [bind_raised]; [|discriminate].
  destruct body as [body|]; cbn [bind_raised]; [|discriminate].
  destruct (py_in "error" body) as [e|[|]]; cbn [lift_py bind_raised];
    [discriminate| |discriminate].
  destruct (py_getitem body "error") as [e|err]; cbn [lift_py bind_raised];
    [discriminate|].
  destruct (py_getitem err "message"); cbn [lift_py bind_raised]; discriminate.
Qed.

(** X14. With the globals as the module sets them the credential check
    never fires: every dispatch sends exactly one request, to the
    endpoint's own address with a timeout of 10, and the configuration
    error cannot be the outcome. *)
Theorem module_config_always_dispatches
    (up : upstream) (endpoint : string) (params : Dict.dict) :
  snd (make_weather_request module_config up endpoint params)
  = [weather_request module_config endpoint params]
  /\ req_url (weather_request module_config endpoint params)
     = "http://api.weatherapi.com/v1/" ++ endpoint ++ ".json"
  /\ req_timeout (weather_request module_config endpoint params) = 10%Z
  /\ (fst (make_weather_request module_config up endpoint params)
      = Raise (ToolError ApiKeyNotConfigured) -> False).
Proof.
  assert (Hk : API_KEY module_config <> PLACEHOLDER_KEY) by discriminate.
  rewrite make_weather_request_configured by exact Hk.
  repeat split. cbn [fst]. apply handlers_never_report_configuration.
Qed.

(* ===================================================================== *)
(** * Further facts about the agent client *)
(* ===================================================================== *)

(** X15. The entry point of the client overwrites the API key and the
    endpoint with the empty string before it tests them: whatever the
    environment holds, the test fails, the setup notice is printed and
    the agent is never started. *)
Theorem client_main_never_runs (env : environ) :
  client_main env = SetupError required_vars
  /\ (forall env', client_main env <> RunAgent env').
Proof.
  assert (E : client_main env = SetupError required_vars) by reflexivity.
  split; [exact E|]. intros env'. rewrite E. discriminate.
Qed.

Section SessionFacts.

Variable agent_state : Type.
Variable ainvoke : agent_state -> string -> turn_result * agent_state.

Lemma tool_invocations_app (a b : list event) :
  tool_invocations (a ++ b) = (tool_invocations a ++ tool_invocations b)%list.
Proof. unfold tool_invocations. apply flat_map_app. Qed.

Lemma tool_invocations_turn (user_input : string) (r : turn_result) :
  tool_invocations (turn_events user_input r) = tool_calls r.
Proof.
  unfold turn_events, tool_invocations. cbn [flat_map app].
  rewrite flat_map_app.
  assert (E : flat_map (fun e => match e with
                                 | ToolInvoked name => [name]
                                 | _ => []
                                 end) (map ToolInvoked (tool_calls r))
              = tool_calls r).
  { induction (tool_calls r) as [|t l IH]; cbn; [reflexivity | now rewrite IH]. }
  rewrite E. destruct (reply r); cbn; apply app_nil_r.
Qed.

(** X16. How the loop is left depends on the lines typed alone: it
    terminates when one of them is an exit command and runs out of input
    otherwise.  No reply and no failure of the agent ends the session. *)
Theorem chat_loop_exit_by_input (st : agent_state) (inputs : list string) :
  fst (fst (chat_loop agent_state ainvoke st inputs))
  = if existsb is_exit_command inputs then Terminated else InputExhausted.
Proof.
  revert st. induction inputs as [|u rest IH]; intros st; cbn [chat_loop existsb].
  - reflexivity.
  - destruct (is_exit_command u); [reflexivity|]. cbn [orb].
    destruct (ainvoke st u) as [r st'].
    specialize (IH st').
    destruct (chat_loop agent_state ainvoke st' rest) as [[ex evs] st''].
    exact IH.
Qed.

(** X17. The tools invoked during a session are exactly those the agent
    calls in its turns on the lines typed before the first exit command,
    in that order: the loop itself invokes no tool, and none is invoked
    for an exit command or after it. *)
Theorem chat_loop_tool_invocations (st : agent_state) (inputs : list string) :
  tool_invocations (snd (fst (chat_loop agent_state ainvoke st inputs)))
  = turns_tool_calls agent_state ainvoke st (before_exit inputs).
Proof.
  revert st.
  induction inputs as [|u rest IH]; intros st;
    cbn [chat_loop before_exit turns_tool_calls].
  - reflexivity.
  - destruct (is_exit_command u); [reflexivity|].
    cbn [turns_tool_calls].
    destruct (ainvoke st u) as [r st'].
    specialize (IH st').
    destruct (chat_loop agent_state ainvoke st' rest) as [[ex evs] st''].
    cbn [fst snd] in *.
    now rewrite tool_invocations_app, tool_invocations_turn, IH.
Qed.

Lemma chat_events_map_Chat (evs : list event) :
  chat_events (map Chat evs) = evs.
Proof.
  unfold chat_events. induction evs as [|e evs IH]; cbn; [reflexivity|].
  now rewrite IH.
Qed.

Lemma chat_events_app (a b : list client_event) :
  chat_events (a ++ b) = (chat_events a ++ chat_events b)%list.
Proof. unfold chat_events. apply flat_map_app. Qed.

Lemma chat_events_PrintTool (names : list string) :
  chat_events (map PrintTool names) = [].
Proof.
  unfold chat_events. induction names as [|n l IH]; cbn; [reflexivity | exact IH].
Qed.

(** X18. The conversation takes place only when every step of the
    start-up has succeeded: the model, the session, the loading of the
    tools, the test call of the model and the creation of the agent.
    Then it is exactly the conversation of the loop; when any step
    fails, no line is read and the agent is not invoked. *)
Theorem run_mcp_agent_conversation
    (s : startup) (st : agent_state) (inputs : list string) :
  chat_events (run_mcp_agent agent_state ainvoke s st inputs)
  = if startup_ok s
    then snd (fst (chat_loop agent_state ainvoke st inputs))
    else [].
Proof.
  unfold run_mcp_agent, session_body, startup_ok.
  destruct (model_init s); [reflexivity|].
  destruct (session_open s); [reflexivity|].
  destruct (tools_load s); [reflexivity|].
  change (chat_events (PrintInitializing :: PrintModelInitialized :: ?l))
    with (chat_events l).
  rewrite chat_events_app, chat_events_PrintTool. cbn [app].
  destruct (test_invoke s); [reflexivity|].
  destruct (agent_create s); [reflexivity|].
  destruct (chat_loop agent_state ainvoke st inputs) as [[ex evs] st'].
  change (chat_events (PrintTestReply :: PrintAgentReady :: ?l))
    with (chat_events l).
  rewrite chat_events_app, chat_events_map_Chat. cbn [fst snd].
  destruct ex; cbn; now rewrite app_nil_r.
Qed.

End SessionFacts.

Lemma generated_document_is_rendering_witness :
  exists document,
    sample_pdf_renderer "Hello" = inr document
    /\ fs_write empty_fs "report_20251028_140307.pdf"
                (encode_utf8 "%PDF-1.3 Hello") "report_20251028_140307.pdf"
       = Some document.
Proof.
  destruct (proj1 (generated_document_is_rendering
                     all_writable empty_fs sample_pdf_renderer sample_pdf_renderer
                     example_now "Hello" None
                     (JArr [ JObj [ ("data", JStr (b64encode (encode_utf8 "%PDF-1.3 Hello")));
                                    ("mime_type", JStr "application/pdf");
                                    ("name", JStr "report_20251028_140307.pdf") ] ])
                     (fs_write empty_fs "report_20251028_140307.pdf"
                               (encode_utf8 "%PDF-1.3 Hello")))
                  eq_refl)
    as (document & Hr & _ & _ & Hf).
  exists document. now split.
Defined.

Lemma generate_png_image_failures_witness :
  fst (generate_png_image failing_png_renderer FontLoaded all_writable empty_fs
                          example_now "Hello" None)
  = inl (FailedToGeneratePng (FromLibrary "cannot draw"))
  /\ exists c, FailedToGeneratePng (FromLibrary "cannot draw")
               = FailedToGeneratePng c.
Proof.
  split; [reflexivity|].
  exact (proj1 (generate_png_image_failures
                  all_writable empty_fs failing_png_renderer FontLoaded
                  example_now "Hello" None)
               (FailedToGeneratePng (FromLibrary "cannot draw")) eq_refl).
Defined.

(** A turn that fails is followed by the next line. *)
Example failing_turns_do_not_end_session :
  chat_loop nat failing_agent 0 ["hello"; "again"; "exit"; "late"]
  = (Terminated,
     [ ReadInput "hello"; AgentInvoked "hello"; PrintFailure "model error";
       ReadInput "again"; AgentInvoked "again"; PrintFailure "model error";
       ReadInput "exit"; PrintExiting ],
     2%nat).
Proof. reflexivity. Qed.

Lemma lower_length (s : string) : String.length (lower s) = String.length s.
Proof. induction s as [|c s IH]; cbn; [reflexivity | now rewrite IH]. Qed.

Lemma exit_command_length (user_input : string) :
  is_exit_command user_input = true -> String.length user_input = 4%nat.
Proof.
  unfold is_exit_command. cbn [existsb]. rewrite orb_false_r, orb_true_iff.
  rewrite !String.eqb_eq, <- (lower_length user_input).
  intros [-> | ->]; reflexivity.
Qed.

(** X19. The exit commands are recognised only when they are the whole
    line: with anything in front or behind, a blank included, the line is
    no exit command and goes to the agent like any other input. *)
Theorem padded_exit_command_is_input (user_input extra : string) :
  is_exit_command user_input = true ->
  extra <> "" ->
  is_exit_command (extra ++ user_input) = false
  /\ is_exit_command (user_input ++ extra) = false.
Proof.
  intros Hq He. apply exit_command_length in Hq.
  assert (Hx : (0 < String.length extra)%nat).
  { destruct extra; [contradiction | cbn; lia]. }
  split.
  - destruct (is_exit_command (extra ++ user_input)) eqn:E; [|reflexivity].
    apply exit_command_length in E. rewrite append_length in E. lia.
  - destruct (is_exit_command (user_input ++ extra)) eqn:E; [|reflexivity].
    apply exit_command_length in E. rewrite append_length in E. lia.
Qed.

Lemma padded_exit_command_is_input_witness :
  is_exit_command "quit" = true
  /\ is_exit_command ("quit" ++ " ") = false
  /\ agent_inputs (snd (fst (chat_loop nat echo_agent 0 ["quit "; "exit"])))
     = ["quit "].
Proof.
  split; [reflexivity|]. split; [|reflexivity].
  apply (padded_exit_command_is_input "quit" " " eq_refl). discriminate.
Defined.

(* ===================================================================== *)
(** * Beyond ASCII *)
(* ===================================================================== *)

(** The no-break space and the next-line control are white space: a
    filename made of them is discarded like a blank one. *)
Example get_report_filename_no_break_space :
  strip (String "160" (String "133" "")) = ""
  /\ get_report_filename example_now (Some (String "160" (String "133" ""))) "pdf"
     = "report_20251028_140307.pdf".
Proof. split; reflexivity. Qed.

(** The capitals from U+00C0 on are lowered like A-Z: a filename ending
    with the capital E acute (201) carries the extension written with the
    small one (233), and an extension written with the capital is
    appended to every name. *)
Example get_report_filename_latin_capitals :
  lower ("R" ++ String "201" "") = "r" ++ String "233" ""
  /\ get_report_filename example_now (Some ("a." ++ String "201" ""))
                         (String "233" "")
     = "a." ++ String "201" ""
  /\ get_report_filename example_now (Some ("a." ++ String "201" ""))
                         (String "201" "")
     = "a." ++ String "201" "" ++ "." ++ String "201" "".
Proof. repeat split; reflexivity. Qed.
